(** * gamelocker.api: the Gamelocker client, embedded in Rocq

    The development follows [src/gamelocker/api.py].  The class
    [Gamelocker] becomes a record stored in a heap of client objects, its
    methods become computations in a state-and-exception monad whose state
    holds the heap and the log of the HTTP requests issued so far.

    What lies outside the file is taken as a parameter of the development:
    the HTTP service behind [requests.get], the two functions of
    [gamelocker.datatypes] that the client calls, the iteration protocol of
    the objects they build, and [datetime.isoformat]. *)

From Stdlib Require Import ZArith Lia.
From stdpp Require Import base option list strings gmap.

Set Warnings "-register-all".

Local Open Scope string_scope.
Local Open Scope Z_scope.
Local Open Scope list_scope.

(** ** Python values that travel through the client *)

(** A parsed JSON body, as [http.json()] returns it.  A JSON object is a
    Python dict, kept as an association list in insertion order. *)
Inductive json : Type :=
  | JNull
  | JBool (b : bool)
  | JInt (n : Z)
  | JFloat (literal : string)
  | JStr (s : string)
  | JArr (items : list json)
  | JObj (members : list (string * json)).

(** The exceptions that can leave a call. *)
Inductive exn : Type :=
  | HTTPError (status : Z)
  | RequestException (what : string)
  | ValueError (what : string)
  | KeyError (key : string)
  | TypeError (what : string)
  | AttributeError (what : string).

(** The outcome of a Python expression: a value, or a raised exception. *)
Inductive Res (A : Type) : Type :=
  | Ok (a : A)
  | Raise (e : exn).
Arguments Ok {A} a.
Arguments Raise {A} e.

#[global] Instance Res_ret : MRet Res := λ A a, Ok a.
#[global] Instance Res_bind : MBind Res := λ A B f m,
  match m with
  | Ok a => f a
  | Raise e => Raise e
  end.
#[global] Instance Res_fmap : FMap Res := λ A B f m,
  match m with
  | Ok a => Ok (f a)
  | Raise e => Raise e
  end.

(** ** Python dicts with string keys, in insertion order *)

Section dict.
Context {V : Type}.

(** [key in d] and [d.get(key)]. *)
Fixpoint dict_get (key : string) (d : list (string * V)) : option V :=
  match d with
  | [] => None
  | (k, v) :: d' => if decide (k = key) then Some v else dict_get key d'
  end.

(** [d[key] = value]: an existing key keeps its position, a new key goes
    to the end. *)
Fixpoint dict_set (key : string) (value : V) (d : list (string * V))
  : list (string * V) :=
  match d with
  | [] => [(key, value)]
  | (k, v) :: d' =>
      if decide (k = key) then (key, value) :: d'
      else (k, v) :: dict_set key value d'
  end.

(** [d[key]], raising [KeyError] on a missing key. *)
Definition dict_item (key : string) (d : list (string * V)) : Res V :=
  match dict_get key d with
  | Some v => Ok v
  | None => Raise (KeyError key)
  end.
End dict.

(** The value of a query parameter: [matches] stores integers and strings. *)
Inductive pval : Type :=
  | PInt (n : Z)
  | PStr (s : string).

(** [createdAtStart] and [createdAtEnd] are a [datetime.datetime] or a str. *)
Inductive timearg (datetime : Type) : Type :=
  | TDatetime (d : datetime)
  | TString (s : string).
Arguments TDatetime {datetime} d.
Arguments TString {datetime} s.

(** ** Truthiness, [range] and iteration *)

(** [if limit:] on [None] or an int. *)
Definition truthy_int (x : option Z) : bool :=
  match x with
  | Some n => negb (Z.eqb n 0)
  | None => false
  end.

(** [if sort:] on [None] or a str. *)
Definition truthy_str (x : option string) : bool :=
  match x with
  | Some s => negb (String.eqb s "")
  | None => false
  end.

(** [if createdAtStart:]: a [datetime.datetime] is always true, a str is
    true when it is not empty. *)
Definition truthy_time {datetime} (x : option (timearg datetime)) : bool :=
  match x with
  | Some (TDatetime _) => true
  | Some (TString s) => negb (String.eqb s "")
  | None => false
  end.

(** [range(start, stop, step)] for a positive [step]; [matches] only calls
    it with the step [max_limit]. *)
Definition py_range (start stop step : Z) : list Z :=
  (λ i : nat, start + step * Z.of_nat i) <$>
    seq 0 (Z.to_nat ((stop - start + step - 1) / step)).

(** A Python str is kept as its UTF-8 bytes; a byte 10xxxxxx continues the
    character that the byte before it belongs to. *)
Definition is_continuation (a : Ascii.ascii) : bool :=
  match a with
  | Ascii.Ascii _ _ _ _ _ _ false true => true
  | _ => false
  end.

(** The continuation bytes a str starts with, and the characters after
    them. *)
Fixpoint split_chars (s : string) : string * list string :=
  match s with
  | EmptyString => (EmptyString, [])
  | String a s' =>
      let '(continuation, chars) := split_chars s' in
      if is_continuation a then (String a continuation, chars)
      else (EmptyString, String a continuation :: chars)
  end.

(** The characters (code points) of a str, each as a str of length one.
    Well-formed UTF-8 starts with no continuation byte. *)
Definition str_chars (s : string) : list string :=
  let '(continuation, chars) := split_chars s in
  match continuation with
  | EmptyString => chars
  | _ => continuation :: chars
  end.

(** [for x in value:] over a parsed JSON value: a list yields its items, a
    dict its keys, a str its characters; the rest is not iterable. *)
Definition json_iter (value : json) : Res (list json) :=
  match value with
  | JArr items => Ok items
  | JObj members => Ok (JStr <$> members.*1)
  | JStr s => Ok (JStr <$> str_chars s)
  | _ => Raise (TypeError "object is not iterable")
  end.

(** ** Requests, responses and the client object *)

Record Request : Type := mkRequest {
  url : string;
  headers : list (string * string);
  params : option (list (string * pval))
}.

(** What [requests.get] hands back: whether [raise_for_status()] raises,
    and what [json()] gives. *)
Record Response : Type := mkResponse {
  raise_for_status : option exn;
  json_body : Res json
}.

Record Client : Type := mkClient {
  apikey : string;
  _apiurl : string;
  title : string;
  region : string
}.

(** [self.title = value] and [self.region = value] on the record. *)
Definition set_title (value : string) (c : Client) : Client :=
  {| apikey := apikey c; _apiurl := _apiurl c; title := value; region := region c |}.

Definition set_region (value : string) (c : Client) : Client :=
  {| apikey := apikey c; _apiurl := _apiurl c; title := title c; region := value |}.

Definition loc : Type := nat.

(** The state a call runs in: the client objects, and every request issued
    so far, oldest first. *)
Record State : Type := mkState {
  heap : gmap loc Client;
  log : list Request
}.

(** ** The monad of method bodies *)

Definition M (A : Type) : Type := State → Res A * State.

#[global] Instance M_ret : MRet M := λ A a σ, (Ok a, σ).
#[global] Instance M_bind : MBind M := λ A B f m σ,
  match m σ with
  | (Ok a, σ') => f a σ'
  | (Raise e, σ') => (Raise e, σ')
  end.

#[global] Instance M_fmap : FMap M := λ A B f m σ,
  match m σ with
  | (Ok a, σ') => (Ok (f a), σ')
  | (Raise e, σ') => (Raise e, σ')
  end.

(** A pure outcome inside a method body. *)
Definition lift {A} (r : Res A) : M A := λ σ, (r, σ).

(** [self.<field>] reads the object [self] points to. *)
Definition read (self : loc) : M Client := λ σ,
  match heap σ !! self with
  | Some c => (Ok c, σ)
  | None => (Raise (AttributeError "no such object"), σ)
  end.

(** [self.<field> = value] rewrites it in place. *)
Definition write (self : loc) (f : Client → Client) : M unit := λ σ,
  match heap σ !! self with
  | Some c => (Ok tt, mkState (<[self := f c]> (heap σ)) (log σ))
  | None => (Raise (AttributeError "no such object"), σ)
  end.

(** ** A sample service

    A concrete instance of what the development is parametric in, to run
    the client on: entities are kept as their parsed JSON, linking leaves
    them as they are, and the service answers the [i]-th request with a
    document of [i + 1] matches. *)

Definition sample_data_to_object (raw : json) : Res json :=
  match raw with
  | JObj _ => Ok raw
  | _ => Raise (TypeError "string indices must be integers")
  end.

Definition sample_link_to_object (element : json) (includes : list json)
    : Res json :=
  Ok element.

Definition sample_obj_iter (element : json) : Res (list json) :=
  Raise (TypeError "object is not iterable").

(** A naive [datetime] with whole seconds. *)
Record sample_datetime : Type := mkDatetime {
  year : Z;
  month : Z;
  day : Z;
  hour : Z;
  minute : Z;
  second : Z
}.

Definition digit (n : Z) : string :=
  String (Ascii.ascii_of_nat (48 + Z.to_nat (n mod 10))) EmptyString.

Definition pad2 (n : Z) : string := digit (n / 10) +:+ digit n.

Definition pad4 (n : Z) : string := pad2 (n / 100) +:+ pad2 n.

(** YYYY-MM-DDTHH:MM:SS *)
Definition sample_isoformat (d : sample_datetime) : string :=
  pad4 (year d) +:+ "-" +:+ pad2 (month d) +:+ "-" +:+ pad2 (day d) +:+ "T" +:+
  pad2 (hour d) +:+ ":" +:+ pad2 (minute d) +:+ ":" +:+ pad2 (second d).

Definition sample_match : json :=
  JObj [("type", JStr "match"); ("id", JStr "abc123")].

Definition sample_document (count : nat) : json :=
  JObj [("data", JArr (replicate count sample_match));
        ("included", JArr [JObj [("type", JStr "player"); ("id", JStr "p1")]])].

Definition sample_server (seen : list Request) (request : Request)
    : Res Response :=
  Ok (mkResponse None (Ok (sample_document (S (length seen))))).

(** The same service, out of order on the second request it receives. *)
Definition flaky_server (seen : list Request) (request : Request)
    : Res Response :=
  if decide (length seen = 1%nat)
  then Ok (mkResponse (Some (HTTPError 503)) (Raise (ValueError "no JSON body")))
  else sample_server seen request.

(** A service that answers every request with the same body. *)
Definition constant_server (body : json) (seen : list Request)
    (request : Request) : Res Response :=
  Ok (mkResponse None (Ok body)).

(** A service that cannot be reached: [requests.get] itself raises. *)
Definition unreachable_server (seen : list Request) (request : Request)
    : Res Response :=
  Raise (RequestException "connection refused").

(** A service whose answers have status 200 and a body that is no JSON. *)
Definition garbled_server (seen : list Request) (request : Request)
    : Res Response :=
  Ok (mkResponse None (Raise (ValueError "no JSON object could be decoded"))).

Definition sample_client : Client :=
  {| apikey := "getoffmylawn";
     _apiurl := "https://api.dc01.gamelockerapp.com/";
     title := "semc-vainglory";
     region := "na" |}.

(** One client object, at location 0, and no request sent yet. *)
Definition sample_state : State :=
  mkState {[ 0%nat := sample_client ]} [].

(** ** The class [Gamelocker] *)

Section Gamelocker.

(** The objects that [gamelocker.datatypes] builds, and the two functions
    of that module the client calls.  Either may raise. *)
Variable Obj : Type.
Variable data_to_object : json → Res Obj.
Variable link_to_object : Obj → list Obj → Res (Obj).

(** [for x in obj:] over such an object, as [list.__iadd__] runs it. *)
Variable obj_iter : Obj → Res (list Obj).

(** [datetime.datetime], with its method [isoformat]. *)
Variable datetime : Type.
Variable isoformat : datetime → string.

(** The service behind [requests.get]: its answer to a request, given the
    requests it has seen before.  [Raise] is [requests.get] itself raising. *)
Variable server : list Request → Request → Res Response.

(** What [_get] returns: one object, or a list of them. *)
Inductive GetResult : Type :=
  | Single (element : Obj)
  | Many (elements : list Obj).

(** [Gamelocker(apikey, datacenter)] allocates the object and runs
    [__init__] on it; a caller that leaves [datacenter] out passes "dc01". *)
Definition __init__ (apikey datacenter : string) : M loc := λ σ,
  let self := fresh (dom (heap σ)) in
  let c := {| apikey := apikey;
              _apiurl := "https://api." +:+ datacenter +:+ ".gamelockerapp.com/";
              title := "";
              region := "" |} in
  (Ok self, mkState (<[self := c]> (heap σ)) (log σ)).

(** [requests.get(url, headers=headers, params=params)]: the request is
    recorded as it stands at the time of the call, and the service answers. *)
Definition requests_get (url : string) (headers : list (string * string))
    (params : option (list (string * pval))) : M Response := λ σ,
  let request := mkRequest url headers params in
  (server (log σ) request, mkState (heap σ) (log σ ++ [request])).

(** [http.raise_for_status()]. *)
Definition check_status (http : Response) : Res unit :=
  match raise_for_status http with
  | Some e => Raise e
  | None => Ok tt
  end.

Definition _req (self : loc) (method : string)
    (params : option (list (string * pval))) : M json :=
  c ← read self;
  let headers := [("Authorization", "Bearer " +:+ apikey c);
                  ("X-TITLE-ID", title c);
                  ("Accept", "application/vnd.api+json")] in
  http ← requests_get (_apiurl c +:+ method) headers params;
  _ ← lift (check_status http);
  lift (json_body http).

(** The first loop of [_get]: [includes.append(data_to_object(incl))] for
    each [incl] still to visit. *)
Fixpoint collect_includes (todo : list json) (includes : list Obj)
    : Res (list Obj) :=
  match todo with
  | [] => Ok includes
  | incl :: todo' =>
      element ← data_to_object incl;
      collect_includes todo' (includes ++ [element])
  end.

(** The second loop of [_get], over a list-shaped [data["data"]]. *)
Fixpoint link_elements (todo : list json) (includes elements : list Obj)
    : Res (list Obj) :=
  match todo with
  | [] => Ok elements
  | dat :: todo' =>
      element ← data_to_object dat;
      element ← link_to_object element includes;
      link_elements todo' includes (elements ++ [element])
  end.

(** The part of [_get] that runs once the body has arrived.  A body that is
    not a dict ends in a [TypeError] on every path: on the test
    ["included" in data] for a scalar, on [data["included"]] or
    [data["data"]] for a list or a str. *)
Definition _get_document (data : json) : Res GetResult :=
  match data with
  | JObj members =>
      includes ←
        match dict_get "included" members with
        | Some included =>
            todo ← json_iter included;
            collect_includes todo []
        | None => Ok []
        end;
      main ← dict_item "data" members;
      match main with
      | JArr items => Many <$> link_elements items includes []
      | _ =>
          element ← data_to_object main;
          element ← link_to_object element includes;
          Ok (Single element)
      end
  | _ => Raise (TypeError "body is not a dict")
  end.

Definition _get (self : loc) (endpoint elid : string)
    (params : option (list (string * pval))) : M GetResult :=
  c ← read self;
  data ← _req self ("shards/" +:+ region c +:+ "/" +:+ endpoint +:+ "/" +:+ elid)
               params;
  lift (_get_document data).

(** A caller that leaves [region] out passes "na". *)
Definition Vainglory (self : loc) (region : string) : M loc :=
  _ ← write self (set_title "semc-vainglory");
  _ ← write self (set_region region);
  mret self.

Definition status (self : loc) : M json := _req self "status" None.

Definition match_ (self : loc) (elid : string) : M GetResult :=
  _get self "matches" elid None.

Definition player (self : loc) (elid : string) : M GetResult :=
  _get self "players" elid None.

Definition max_limit : Z := 50.

(** [matches += result]: a list is appended, anything else is iterated. *)
Definition list_iadd (matches : list Obj) (result : GetResult)
    : Res (list Obj) :=
  match result with
  | Many elements => Ok (matches ++ elements)
  | Single element => (λ l, matches ++ l) <$> obj_iter element
  end.

(** The batching loop of [matches], over the batches still to request. *)
Fixpoint matches_loop (self : loc) (batches : list Z) (limit offset : Z)
    (params : list (string * pval)) (matches : list Obj) : M (list Obj) :=
  match batches with
  | [] => mret matches
  | batch :: batches' =>
      let params := dict_set "page[limit]" (PInt (Z.min limit max_limit)) params in
      let params := dict_set "page[offset]" (PInt (batch + offset)) params in
      result ← _get self "matches" "" (Some params);
      matches ← lift (list_iadd matches result);
      matches_loop self batches' (limit - max_limit) offset params matches
  end.

(** The str a time argument is sent as. *)
Definition time_str (t : timearg datetime) : string :=
  match t with
  | TDatetime d => isoformat d
  | TString s => s
  end.

(** The dict [params] as it stands when the batching loop starts. *)
Definition matches_params (limit offset : option Z)
    (sort player team : option string)
    (createdAtStart createdAtEnd : option (timearg datetime))
    : list (string * pval) :=
  let params := [] in
  let params := if truthy_int limit
                then dict_set "page[limit]" (PInt (default 0 limit)) params
                else params in
  let params := if truthy_int offset
                then dict_set "page[offset]" (PInt (default 0 offset)) params
                else params in
  let params := if truthy_str sort
                then dict_set "sort" (PStr (default "" sort)) params
                else params in
  let params := if truthy_str player
                then dict_set "filter[playerNames]" (PStr (default "" player)) params
                else params in
  let params := if truthy_str team
                then dict_set "filter[teamNames]" (PStr (default "" team)) params
                else params in
  let params := match createdAtStart with
                | Some t => if truthy_time createdAtStart
                            then dict_set "filter[createdAt-start]" (PStr (time_str t)) params
                            else params
                | None => params
                end in
  let params := match createdAtEnd with
                | Some t => if truthy_time createdAtEnd
                            then dict_set "filter[createdAt-end]" (PStr (time_str t)) params
                            else params
                | None => params
                end in
  params.

(** [limit] and [offset] after the two [else] branches. *)
Definition matches_limit (limit : option Z) : Z :=
  if truthy_int limit then default 0 limit else max_limit.

Definition matches_offset (offset : option Z) : Z :=
  if truthy_int offset then default 0 offset else 0.

Definition matches (self : loc) (limit offset : option Z)
    (sort player team : option string)
    (createdAtStart createdAtEnd : option (timearg datetime))
    : M (list Obj) :=
  let params := matches_params limit offset sort player team
                  createdAtStart createdAtEnd in
  let limit := matches_limit limit in
  let offset := matches_offset offset in
  matches_loop self (py_range 0 limit max_limit) limit offset params [].

(** ** The public interface as data *)

(** One call on a client: the five public methods with their arguments. *)
Inductive Call : Type :=
  | CallVainglory (region : string)
  | CallStatus
  | CallMatch (elid : string)
  | CallPlayer (elid : string)
  | CallMatches (limit offset : option Z) (sort player team : option string)
      (createdAtStart createdAtEnd : option (timearg datetime)).

(** What a call returns. *)
Inductive Value : Type :=
  | VClient (self : loc)
  | VJson (body : json)
  | VResult (result : GetResult)
  | VList (elements : list Obj).

Definition run (self : loc) (call : Call) : M Value :=
  match call with
  | CallVainglory region => VClient <$> Vainglory self region
  | CallStatus => VJson <$> status self
  | CallMatch elid => VResult <$> match_ self elid
  | CallPlayer elid => VResult <$> player self elid
  | CallMatches limit offset sort player team createdAtStart createdAtEnd =>
      VList <$> matches self limit offset sort player team
                  createdAtStart createdAtEnd
  end.

(** ** Vocabulary of the statements *)

(** The three headers the contract names, for a client in state [c]. *)
Definition client_headers (c : Client) : list (string * string) :=
  [("Authorization", "Bearer " +:+ apikey c);
   ("X-TITLE-ID", title c);
   ("Accept", "application/vnd.api+json")].

(** The body the service yields for [request] after the requests [seen],
    once the status check has passed. *)
Definition answer (seen : list Request) (request : Request) : Res json :=
  http ← server seen request;
  _ ← check_status http;
  json_body http.

(** What [_get] makes of that body. *)
Definition fetch (seen : list Request) (request : Request) : Res GetResult :=
  answer seen request ≫= _get_document.

(** The request of a shard-scoped call. *)
Definition shard_request (c : Client) (endpoint elid : string)
    (params : option (list (string * pval))) : Request :=
  mkRequest (_apiurl c +:+ "shards/" +:+ region c +:+ "/" +:+ endpoint +:+ "/" +:+ elid)
    (client_headers c) params.

(** The query parameters of the batch that starts at [batch]: the two page
    keys written over the filters [params]. *)
Definition batch_params (params : list (string * pval)) (limit offset : Z)
    (batch : Z) : list (string * pval) :=
  dict_set "page[offset]" (PInt (batch + offset))
    (dict_set "page[limit]" (PInt (Z.min limit max_limit)) params).

(** The [i]-th request of [matches] for a limit [L] and an offset [O]. *)
Definition batch_request (c : Client) (params : list (string * pval))
    (L O : Z) (i : nat) : Request :=
  shard_request c "matches" ""
    (Some (batch_params params (L - max_limit * Z.of_nat i) O
             (max_limit * Z.of_nat i))).

(** The requests a call sends when nothing fails, in order. *)
Definition planned (c : Client) (call : Call) : list Request :=
  match call with
  | CallVainglory _ => []
  | CallStatus => [mkRequest (_apiurl c +:+ "status") (client_headers c) None]
  | CallMatch elid => [shard_request c "matches" elid None]
  | CallPlayer elid => [shard_request c "players" elid None]
  | CallMatches limit offset sort player team createdAtStart createdAtEnd =>
      let L := matches_limit limit in
      batch_request c
        (matches_params limit offset sort player team createdAtStart createdAtEnd)
        L (matches_offset offset)
      <$> seq 0 (Z.to_nat ((L + 49) / 50))
  end.

(** The heap a call leaves behind. *)
Definition heap_after (self : loc) (c : Client) (call : Call)
    (h : gmap loc Client) : gmap loc Client :=
  match call with
  | CallVainglory region =>
      <[self := mkClient (apikey c) (_apiurl c) "semc-vainglory" region]> h
  | _ => h
  end.

(** The requests a call has added to the log. *)
Definition issued (σ σ' : State) : list Request :=
  drop (length (log σ)) (log σ').

(** The page size and the page start a request asks for: the ints under
    page[limit] and page[offset], 0 where there is none. *)
Definition page_limit (request : Request) : Z :=
  match params request ≫= dict_get "page[limit]" with
  | Some (PInt n) => n
  | _ => 0
  end.

Definition page_offset (request : Request) : Z :=
  match params request ≫= dict_get "page[offset]" with
  | Some (PInt n) => n
  | _ => 0
  end.

(** ** Facts about dicts *)

Lemma dict_get_set_eq {V} (key : string) (value : V) (d : list (string * V)) :
  dict_get key (dict_set key value d) = Some value.
Proof.
  induction d as [|[k v] d IH]; simpl.
  - by rewrite decide_True.
  - destruct (decide (k = key)) as [->|Hne]; simpl.
    + by rewrite decide_True.
    + by rewrite decide_False.
Qed.

Lemma dict_get_set_ne {V} (key key' : string) (value : V)
    (d : list (string * V)) :
  key ≠ key' → dict_get key' (dict_set key value d) = dict_get key' d.
Proof.
  intros Hne. induction d as [|[k v] d IH]; simpl.
  - by rewrite decide_False.
  - destruct (decide (k = key)) as [->|Hk]; simpl.
    + by rewrite !decide_False.
    + by rewrite IH.
Qed.

Lemma dict_set_set_eq {V} (key : string) (value value' : V)
    (d : list (string * V)) :
  dict_set key value (dict_set key value' d) = dict_set key value d.
Proof.
  induction d as [|[k v] d IH]; simpl.
  - by rewrite decide_True.
  - destruct (decide (k = key)) as [->|Hk]; simpl.
    + by rewrite decide_True.
    + by rewrite decide_False, IH.
Qed.

(** Writing two distinct keys commutes as soon as the one written last is
    already there: no new position is handed out for it. *)
Lemma dict_set_swap {V} (key key' : string) (value value' : V)
    (d : list (string * V)) :
  key ≠ key' → is_Some (dict_get key d) →
  dict_set key value (dict_set key' value' d)
  = dict_set key' value' (dict_set key value d).
Proof.
  intros Hne. induction d as [|[k v] d IH]; simpl.
  - intros [? [=]].
  - intros Hin. repeat (case_decide; simplify_eq/=); try done.
    by rewrite IH.
Qed.

Lemma batch_params_again (params : list (string * pval))
    (limit limit' offset batch batch' : Z) :
  batch_params (batch_params params limit offset batch) limit' offset batch'
  = batch_params params limit' offset batch'.
Proof.
  unfold batch_params.
  rewrite (dict_set_swap "page[limit]" "page[offset]").
  - by rewrite dict_set_set_eq, dict_set_set_eq.
  - done.
  - rewrite dict_get_set_eq. by eexists.
Qed.

Lemma batch_params_limit (params : list (string * pval))
    (limit offset batch : Z) :
  dict_get "page[limit]" (batch_params params limit offset batch)
  = Some (PInt (Z.min limit max_limit)).
Proof.
  unfold batch_params. rewrite dict_get_set_ne by done.
  apply dict_get_set_eq.
Qed.

Lemma batch_params_offset (params : list (string * pval))
    (limit offset batch : Z) :
  dict_get "page[offset]" (batch_params params limit offset batch)
  = Some (PInt (batch + offset)).
Proof. apply dict_get_set_eq. Qed.

Lemma batch_params_other (params : list (string * pval))
    (limit offset batch : Z) (key : string) :
  key ≠ "page[limit]" → key ≠ "page[offset]" →
  dict_get key (batch_params params limit offset batch) = dict_get key params.
Proof.
  intros H1 H2. unfold batch_params. by rewrite !dict_get_set_ne.
Qed.

(** ** One request at a time *)

Lemma _req_run (self : loc) (c : Client) (method : string)
    (params : option (list (string * pval))) (σ : State) :
  heap σ !! self = Some c →
  let request := mkRequest (_apiurl c +:+ method) (client_headers c) params in
  _req self method params σ
  = (answer (log σ) request, mkState (heap σ) (log σ ++ [request])).
Proof.
  intros Hself. unfold _req, answer, mbind, M_bind, Res_bind, read.
  rewrite Hself. unfold requests_get, client_headers, lift. simpl.
  destruct (server _ _) as [http|e]; [|done].
  by destruct (check_status http).
Qed.

Lemma _get_run (self : loc) (c : Client) (endpoint elid : string)
    (params : option (list (string * pval))) (σ : State) :
  heap σ !! self = Some c →
  let request := shard_request c endpoint elid params in
  _get self endpoint elid params σ
  = (fetch (log σ) request, mkState (heap σ) (log σ ++ [request])).
Proof.
  intros Hself. unfold _get. unfold mbind at 1. unfold M_bind, read.
  rewrite Hself. unfold mbind at 1.
  rewrite (_req_run self c) by done. unfold fetch, shard_request. simpl.
  by destruct (answer _ _).
Qed.

(** One turn of the batching loop: the request goes out, and the loop goes
    on exactly when the batch came back and could be appended. *)
Lemma matches_loop_step (self : loc) (c : Client) (batch : Z)
    (batches : list Z) (limit offset : Z) (params : list (string * pval))
    (matches : list Obj) (σ : State) :
  heap σ !! self = Some c →
  let params' := batch_params params limit offset batch in
  let request := shard_request c "matches" "" (Some params') in
  let σ1 := mkState (heap σ) (log σ ++ [request]) in
  matches_loop self (batch :: batches) limit offset params matches σ
  = match fetch (log σ) request ≫= list_iadd matches with
    | Ok matches' =>
        matches_loop self batches (limit - max_limit) offset params' matches' σ1
    | Raise e => (Raise e, σ1)
    end.
Proof.
  intros Hself. simpl. unfold mbind at 1. unfold M_bind.
  rewrite (_get_run self c) by done. fold (batch_params params limit offset batch).
  destruct (fetch _ _) as [result|e]; [|done].
  unfold mbind at 1. unfold M_bind, lift. simpl.
  by destruct (list_iadd matches result).
Qed.

(** ** The batching loop as a whole *)

Lemma batch_request_again (c : Client) (params : list (string * pval))
    (limit offset batch L : Z) (i : nat) :
  batch_request c (batch_params params limit offset batch) L offset i
  = batch_request c params L offset i.
Proof. unfold batch_request. by rewrite batch_params_again. Qed.

Lemma batch_requests_again (c : Client) (params : list (string * pval))
    (limit offset batch L : Z) (l : list nat) :
  batch_request c (batch_params params limit offset batch) L offset <$> l
  = batch_request c params L offset <$> l.
Proof. apply list_fmap_ext. intros. apply batch_request_again. Qed.

(** [range(0, L, max_limit)] holds the multiples of [max_limit] below [L]. *)
Lemma py_range_batches (L : Z) :
  py_range 0 L max_limit
  = (λ i : nat, max_limit * Z.of_nat i) <$>
      seq 0 (Z.to_nat ((L + 49) / 50)).
Proof.
  unfold py_range, max_limit.
  replace (L - 0 + 50 - 1) with (L + 49) by lia.
  apply list_fmap_ext. intros. lia.
Qed.

(** The requests of the loop are an initial segment of the planned batches,
    the heap is left alone, and a batch that fails is the last one. *)
Lemma matches_loop_trace (self : loc) (c : Client) (L O : Z) (n : nat) :
  ∀ (j : nat) (params : list (string * pval)) (acc : list Obj)
    (σ σ' : State) (r : Res (list Obj)),
  heap σ !! self = Some c →
  matches_loop self ((λ i : nat, max_limit * Z.of_nat i) <$> seq j n)
    (L - max_limit * Z.of_nat j) O params acc σ = (r, σ') →
  ∃ k : nat,
    (k ≤ n)%nat ∧
    σ' = mkState (heap σ) (log σ ++ (batch_request c params L O <$> seq j k)) ∧
    ∀ (i : nat) (e : exn),
      (i < k)%nat →
      fetch (log σ ++ (batch_request c params L O <$> seq j i))
        (batch_request c params L O (j + i)) = Raise e →
      k = S i ∧ r = Raise e.
Proof.
  induction n as [|n IH]; intros j params acc σ σ' r Hself Hrun.
  - simpl in Hrun. injection Hrun as <- <-. exists 0%nat.
    split; [done|]. split; [|intros; lia].
    destruct σ; simpl. by rewrite app_nil_r.
  - change (seq j (S n)) with (j :: seq (S j) n) in Hrun.
    rewrite fmap_cons, (matches_loop_step self c) in Hrun by done.
    fold (batch_request c params L O j) in Hrun.
    destruct (fetch (log σ) (batch_request c params L O j) ≫= list_iadd acc)
      as [acc'|e'] eqn:Hfetch.
    + replace (L - max_limit * Z.of_nat j - max_limit)
        with (L - max_limit * Z.of_nat (S j)) in Hrun by lia.
      apply IH in Hrun as (k & Hk & -> & Hfail); [|done].
      simpl in Hfail |- *. rewrite batch_requests_again.
      exists (S k). split; [lia|]. split.
      { by rewrite <-app_assoc. }
      intros [|i] e Hi Hraise.
      * simpl in Hraise. rewrite app_nil_r, Nat.add_0_r in Hraise.
        by rewrite Hraise in Hfetch.
      * destruct (Hfail i e) as [-> ->]; [lia| |done].
        rewrite batch_requests_again, batch_request_again, <-app_assoc.
        simpl in Hraise |- *. by replace (S (j + i)) with (j + S i)%nat by lia.
    + injection Hrun as <- <-. exists 1%nat. split; [lia|]. split; [done|].
      intros i e Hi Hraise. assert (i = 0)%nat as -> by lia. split; [done|].
      simpl in Hraise. rewrite app_nil_r, Nat.add_0_r in Hraise.
      rewrite Hraise in Hfetch. simpl in Hfetch. congruence.
Qed.

(** ** Every public call, seen from outside *)

Lemma Vainglory_run (self : loc) (c : Client) (region : string) (σ : State) :
  heap σ !! self = Some c →
  Vainglory self region σ
  = (Ok self,
     mkState (<[self := mkClient (apikey c) (_apiurl c) "semc-vainglory" region]>
                (heap σ)) (log σ)).
Proof.
  intros Hself. unfold Vainglory, mbind, M_bind, write. rewrite Hself. simpl.
  rewrite lookup_insert_eq. simpl. by rewrite insert_insert_eq.
Qed.

(** A new client has its key, the URL of its datacenter, and neither title
    nor region. *)
Lemma __init___run (apikey datacenter : string) (σ : State) :
  ∃ self : loc,
    heap σ !! self = None ∧
    __init__ apikey datacenter σ
    = (Ok self,
       mkState (<[self := mkClient apikey
                            ("https://api." +:+ datacenter +:+ ".gamelockerapp.com/")
                            "" ""]> (heap σ))
               (log σ)).
Proof.
  exists (fresh (dom (heap σ))). split; [|done].
  apply not_elem_of_dom, is_fresh.
Qed.

Lemma answer_fetch (seen : list Request) (request : Request) (e : exn) :
  answer seen request = Raise e → fetch seen request = Raise e.
Proof. unfold fetch. by intros ->. Qed.

Lemma fmap_run {A B} (f : A → B) (m : M A) (σ : State) :
  (f <$> m) σ = (f <$> (m σ).1, (m σ).2).
Proof. unfold fmap at 1. unfold M_fmap. by destruct (m σ) as [[a|e] σ']. Qed.

(** The requests of a call are an initial segment of the planned ones, the
    heap changes as [heap_after] says, and a request the service refuses
    ends the call with that very exception. *)
Lemma run_trace (self : loc) (c : Client) (call : Call) (σ σ' : State)
    (r : Res Value) :
  heap σ !! self = Some c →
  run self call σ = (r, σ') →
  ∃ reqs : list Request,
    σ' = mkState (heap_after self c call (heap σ)) (log σ ++ reqs) ∧
    reqs `prefix_of` planned c call ∧
    ∀ (i : nat) (req : Request) (e : exn),
      reqs !! i = Some req →
      answer (log σ ++ take i reqs) req = Raise e →
      length reqs = S i ∧ r = Raise e.
Proof.
  intros Hself Hrun. destruct call as [g| |elid|elid|li off so pl te cs ce];
    simpl in Hrun; rewrite fmap_run in Hrun.
  - rewrite (Vainglory_run self c) in Hrun by done. injection Hrun as <- <-.
    exists []. simpl. rewrite app_nil_r. split; [done|]. split; [done|].
    intros i req e [=].
  - unfold status in Hrun. rewrite (_req_run self c) in Hrun by done.
    injection Hrun as <- <-. eexists [_]. split; [done|]. split; [done|].
    intros [|i] req e [=<-]; simpl. rewrite app_nil_r. by intros ->.
  - unfold match_ in Hrun. rewrite (_get_run self c) in Hrun by done.
    injection Hrun as <- <-. eexists [_]. split; [done|]. split; [done|].
    intros [|i] req e [=<-]; simpl. rewrite app_nil_r.
    intros ->%answer_fetch. done.
  - unfold player in Hrun. rewrite (_get_run self c) in Hrun by done.
    injection Hrun as <- <-. eexists [_]. split; [done|]. split; [done|].
    intros [|i] req e [=<-]; simpl. rewrite app_nil_r.
    intros ->%answer_fetch. done.
  - unfold matches in Hrun. rewrite py_range_batches in Hrun.
    destruct (matches_loop _ _ _ _ _ _ _) as [r0 σ0] eqn:Hloop.
    injection Hrun as <- <-.
    replace (matches_limit li) with (matches_limit li - max_limit * Z.of_nat 0)
      in Hloop at 2 by lia.
    apply (matches_loop_trace self c) in Hloop as (k & Hk & -> & Hfail);
      [|done].
    eexists. split; [done|]. split.
    { simpl. exists (batch_request c (matches_params li off so pl te cs ce)
                       (matches_limit li) (matches_offset off)
                     <$> seq k (Z.to_nat ((matches_limit li + 49) / 50) - k)).
      rewrite <-fmap_app, <-seq_app. do 2 f_equal. lia. }
    intros i req e Hreq Hraise.
    apply list_lookup_fmap_Some in Hreq as (i' & -> & [-> Hi]%lookup_seq).
    rewrite <-fmap_take, take_seq, Nat.min_l in Hraise by lia.
    apply answer_fetch, Hfail in Hraise as [-> ->]; [|done].
    by rewrite length_fmap, length_seq.
Qed.

Lemma issued_app (σ : State) (h : gmap loc Client) (reqs : list Request) :
  issued σ (mkState h (log σ ++ reqs)) = reqs.
Proof. unfold issued. simpl. by rewrite drop_app_length. Qed.

Lemma issued_planned (self : loc) (c : Client) (call : Call) (σ σ' : State)
    (r : Res Value) (req : Request) :
  heap σ !! self = Some c →
  run self call σ = (r, σ') →
  req ∈ issued σ σ' → req ∈ planned c call.
Proof.
  intros Hself Hrun. apply (run_trace self c) in Hrun as (reqs & -> & [k ->] & _);
    [|done].
  rewrite issued_app. set_solver.
Qed.

Lemma matches_as_call (self : loc) (limit offset : option Z)
    (sort player team : option string)
    (createdAtStart createdAtEnd : option (timearg datetime))
    (σ σ' : State) (r : Res (list Obj)) :
  matches self limit offset sort player team createdAtStart createdAtEnd σ
    = (r, σ') →
  run self (CallMatches limit offset sort player team createdAtStart createdAtEnd) σ
    = (VList <$> r, σ').
Proof. intros Hrun. simpl. by rewrite fmap_run, Hrun. Qed.

(** A filter whose argument is [None] is not in [params]. *)
Lemma matches_params_omits (limit offset : option Z)
    (sort player team : option string)
    (createdAtStart createdAtEnd : option (timearg datetime)) :
  let params := matches_params limit offset sort player team
                  createdAtStart createdAtEnd in
  (sort = None → dict_get "sort" params = None) ∧
  (player = None → dict_get "filter[playerNames]" params = None) ∧
  (team = None → dict_get "filter[teamNames]" params = None) ∧
  (createdAtStart = None → dict_get "filter[createdAt-start]" params = None) ∧
  (createdAtEnd = None → dict_get "filter[createdAt-end]" params = None).
Proof.
  unfold matches_params. repeat split; intros ->; simpl;
    repeat case_match; by rewrite ?dict_get_set_ne by done.
Qed.

(** [limit] and [offset] as the loop uses them, under the claim's reading
    of the defaults. *)
Lemma matches_limit_default (limit : option Z) :
  1 ≤ default 50 limit → matches_limit limit = default 50 limit.
Proof.
  unfold matches_limit, truthy_int. destruct limit as [l|]; simpl; [|done].
  intros Hl. destruct (Z.eqb_spec l 0); [lia|done].
Qed.

Lemma matches_offset_default (offset : option Z) :
  matches_offset offset = default 0 offset.
Proof.
  unfold matches_offset, truthy_int. destruct offset as [o|]; simpl; [|done].
  by destruct (Z.eqb_spec o 0).
Qed.

(** When every batch comes back as a list, the loop sends all of them and
    appends the lists in order. *)
Lemma matches_loop_complete (self : loc) (c : Client) (L O : Z)
    (results : nat → list Obj) (n : nat) :
  ∀ (j : nat) (params : list (string * pval)) (acc : list Obj) (σ : State),
  heap σ !! self = Some c →
  (∀ i : nat, (i < n)%nat →
     fetch (log σ ++ (batch_request c params L O <$> seq j i))
       (batch_request c params L O (j + i))
     = Ok (Many (results (j + i)%nat))) →
  matches_loop self ((λ i : nat, max_limit * Z.of_nat i) <$> seq j n)
    (L - max_limit * Z.of_nat j) O params acc σ
  = (Ok (acc ++ concat (results <$> seq j n)),
     mkState (heap σ) (log σ ++ (batch_request c params L O <$> seq j n))).
Proof.
  induction n as [|n IH]; intros j params acc σ Hself Hok.
  - simpl. rewrite !app_nil_r. by destruct σ.
  - change (seq j (S n)) with (j :: seq (S j) n).
    rewrite !fmap_cons, (matches_loop_step self c) by done.
    fold (batch_request c params L O j).
    pose proof (Hok 0%nat ltac:(lia)) as H0. simpl in H0.
    rewrite app_nil_r, Nat.add_0_r in H0. rewrite H0. simpl.
    replace (L - max_limit * Z.of_nat j - max_limit)
      with (L - max_limit * Z.of_nat (S j)) by lia.
    rewrite IH; simpl; [|done|].
    + by rewrite batch_requests_again, <-!app_assoc.
    + intros i Hi. specialize (Hok (S i) ltac:(lia)).
      rewrite batch_requests_again, batch_request_again, <-app_assoc.
      simpl in Hok |- *.
      by replace (S (j + i)) with (j + S i)%nat by lia.
Qed.

(** ** The two loops of [_get] *)

Lemma collect_includes_spec (todo : list json) :
  ∀ includes pool : list Obj,
  collect_includes todo includes = Ok pool
  ↔ ∃ new : list Obj,
      pool = includes ++ new ∧
      Forall2 (λ raw o, data_to_object raw = Ok o) todo new.
Proof.
  induction todo as [|raw todo IH]; intros includes pool; simpl.
  - split.
    + intros [= <-]. exists []. by rewrite app_nil_r.
    + intros (new & -> & ->%Forall2_nil_inv_l). by rewrite app_nil_r.
  - destruct (data_to_object raw) as [element|e] eqn:Hraw; simpl.
    + rewrite IH. split.
      * intros (new & -> & Hnew). exists (element :: new).
        rewrite <-app_assoc. by split; [|constructor].
      * intros (new & -> & (o & new' & Ho & Hnew & ->)%Forall2_cons_inv_l).
        rewrite Hraw in Ho. injection Ho as <-.
        exists new'. by rewrite <-app_assoc.
    + split; [done|].
      intros (new & _ & (o & new' & Ho & _)%Forall2_cons_inv_l). congruence.
Qed.

Lemma link_elements_spec (includes : list Obj) (todo : list json) :
  ∀ elements out : list Obj,
  link_elements todo includes elements = Ok out
  ↔ ∃ new : list Obj,
      out = elements ++ new ∧
      Forall2 (λ raw o, ∃ element,
                 data_to_object raw = Ok element ∧
                 link_to_object element includes = Ok o) todo new.
Proof.
  induction todo as [|raw todo IH]; intros elements out; simpl.
  - split.
    + intros [= <-]. exists []. by rewrite app_nil_r.
    + intros (new & -> & ->%Forall2_nil_inv_l). by rewrite app_nil_r.
  - destruct (data_to_object raw) as [element|e] eqn:Hraw; simpl.
    + destruct (link_to_object element includes) as [linked|e] eqn:Hlink; simpl.
      * rewrite IH. split.
        -- intros (new & -> & Hnew). exists (linked :: new).
           rewrite <-app_assoc. split; [done|]. constructor; [|done]. eauto.
        -- intros (new & -> & (o & new' & (el & Hel & Ho) & Hnew & ->)%Forall2_cons_inv_l).
           rewrite Hraw in Hel. injection Hel as <-.
           rewrite Hlink in Ho. injection Ho as <-.
           exists new'. by rewrite <-app_assoc.
      * split; [done|].
        intros (new & _ & (o & new' & (el & Hel & Ho) & _)%Forall2_cons_inv_l).
        congruence.
    + split; [done|].
      intros (new & _ & (o & new' & (el & Hel & Ho) & _)%Forall2_cons_inv_l).
      congruence.
Qed.

(** ** The contract of the client *)

(** C8: for every client and every region string, [Vainglory] returns the
    object it was called on, sets its title to "semc-vainglory" and its
    region to the given string as it is, keeps the API key and the base URL,
    touches no other object and sends no request. *)
Theorem Vainglory_frame (self : loc) (c : Client) (region : string) (σ : State) :
  heap σ !! self = Some c →
  Vainglory self region σ
  = (Ok self,
     mkState (<[self := {| apikey := apikey c; _apiurl := _apiurl c;
                           title := "semc-vainglory"; region := region |}]>
                (heap σ))
             (log σ)).
Proof. apply Vainglory_run. Qed.

(** C10: whatever public call runs on a client, the object keeps the API key
    and the base URL it had; only its title and region may differ afterwards,
    and every other object of the heap is as it was. *)
Theorem apikey_and_apiurl_invariant (self : loc) (c : Client) (call : Call)
    (σ σ' : State) (r : Res Value) :
  heap σ !! self = Some c →
  run self call σ = (r, σ') →
  ∃ c' : Client,
    heap σ' = <[self := c']> (heap σ) ∧
    apikey c' = apikey c ∧ _apiurl c' = _apiurl c.
Proof.
  intros Hself Hrun.
  apply (run_trace self c) in Hrun as (reqs & -> & _); [|done].
  destruct call; simpl; try (exists c; by rewrite insert_id).
  by eexists.
Qed.

(** C5: every request a public call issues carries exactly the three headers
    Authorization, X-TITLE-ID and Accept, built from the API key and the
    title the client holds (the empty string while no title is selected). *)
Theorem requests_carry_headers (self : loc) (c : Client) (call : Call)
    (σ σ' : State) (r : Res Value) (req : Request) :
  heap σ !! self = Some c →
  run self call σ = (r, σ') →
  req ∈ issued σ σ' →
  headers req = [("Authorization", "Bearer " +:+ apikey c);
                 ("X-TITLE-ID", title c);
                 ("Accept", "application/vnd.api+json")].
Proof.
  intros Hself Hrun Hreq.
  apply (issued_planned self c call σ σ' r) in Hreq; [|done..].
  destruct call; simpl in Hreq.
  - by apply elem_of_nil in Hreq.
  - by apply list_elem_of_singleton in Hreq as ->.
  - by apply list_elem_of_singleton in Hreq as ->.
  - by apply list_elem_of_singleton in Hreq as ->.
  - by apply list_elem_of_fmap in Hreq as (i & -> & _).
Qed.

(** C4, as the code has it: the URL of every request of a shard-scoped call
    is the base URL followed by "shards/", the region, "/", the endpoint, "/"
    and the id; a list call has the empty id, so its path ends in "/". *)
Theorem shard_paths (self : loc) (c : Client) (call : Call)
    (σ σ' : State) (r : Res Value) (req : Request) :
  heap σ !! self = Some c →
  run self call σ = (r, σ') →
  req ∈ issued σ σ' →
  match call with
  | CallMatch elid =>
      url req = _apiurl c +:+ "shards/" +:+ region c +:+ "/matches/" +:+ elid
  | CallPlayer elid =>
      url req = _apiurl c +:+ "shards/" +:+ region c +:+ "/players/" +:+ elid
  | CallMatches _ _ _ _ _ _ _ =>
      url req = _apiurl c +:+ "shards/" +:+ region c +:+ "/matches/"
  | _ => True
  end.
Proof.
  intros Hself Hrun Hreq.
  apply (issued_planned self c call σ σ' r) in Hreq; [|done..].
  destruct call; simpl in Hreq; [done..| | |].
  - by apply list_elem_of_singleton in Hreq as ->.
  - by apply list_elem_of_singleton in Hreq as ->.
  - by apply list_elem_of_fmap in Hreq as (i & -> & _).
Qed.

(** C3, as the code has it: in every request [matches] issues, the keys
    sort, filter[playerNames], filter[teamNames], filter[createdAt-start] and
    filter[createdAt-end] are absent when the matching argument was not
    supplied, while page[limit] and page[offset] are always present. *)
Theorem matches_optional_params (self : loc) (c : Client)
    (limit offset : option Z) (sort player team : option string)
    (createdAtStart createdAtEnd : option (timearg datetime))
    (σ σ' : State) (r : Res (list Obj)) (req : Request) :
  heap σ !! self = Some c →
  matches self limit offset sort player team createdAtStart createdAtEnd σ
    = (r, σ') →
  req ∈ issued σ σ' →
  ∃ p : list (string * pval),
    params req = Some p ∧
    (sort = None → dict_get "sort" p = None) ∧
    (player = None → dict_get "filter[playerNames]" p = None) ∧
    (team = None → dict_get "filter[teamNames]" p = None) ∧
    (createdAtStart = None → dict_get "filter[createdAt-start]" p = None) ∧
    (createdAtEnd = None → dict_get "filter[createdAt-end]" p = None) ∧
    is_Some (dict_get "page[limit]" p) ∧
    is_Some (dict_get "page[offset]" p).
Proof.
  intros Hself Hrun%matches_as_call Hreq.
  pose proof (issued_planned _ _ _ _ _ _ _ Hself Hrun Hreq) as Hin.
  apply list_elem_of_fmap in Hin as (i & -> & _). eexists. split; [done|].
  rewrite !batch_params_other by done.
  rewrite batch_params_limit, batch_params_offset.
  destruct (matches_params_omits limit offset sort player team
              createdAtStart createdAtEnd) as (? & ? & ? & ? & ?).
  repeat split; by eauto.
Qed.

(** C6: when the transport signals an HTTP error for a request a call has
    issued, the call raises that exception and that request is the last one
    it has sent: nothing is tried again, no later batch is requested, and no
    list is returned. *)
Theorem http_error_is_final (self : loc) (c : Client) (call : Call)
    (σ σ' : State) (r : Res Value) (i : nat) (req : Request)
    (http : Response) (e : exn) :
  heap σ !! self = Some c →
  run self call σ = (r, σ') →
  (length (log σ) ≤ i)%nat →
  log σ' !! i = Some req →
  server (take i (log σ')) req = Ok http →
  raise_for_status http = Some e →
  r = Raise e ∧ length (log σ') = S i.
Proof.
  intros Hself Hrun Hi Hreq Hhttp He.
  apply (run_trace self c) in Hrun as (reqs & -> & _ & Hfail); [|done].
  simpl in *. rewrite lookup_app_r in Hreq by done.
  destruct (Hfail _ _ e Hreq) as [Hlen ->].
  - unfold answer.
    replace (log σ ++ take (i - length (log σ)) reqs)
      with (take i (log σ ++ reqs)).
    + rewrite Hhttp. simpl. unfold check_status. by rewrite He.
    + rewrite take_app. f_equal. apply take_ge. lia.
  - split; [done|]. rewrite length_app, Hlen. lia.
Qed.

(** C7: a [datetime] [d] and the str [d.isoformat()] (which is never the
    empty str) give the same call of [matches], as start and as end of the
    interval: the same requests, the same answers, the same result; and the
    parameter that is sent is that str. *)
Theorem createdAt_datetime_or_str (self : loc) (limit offset : option Z)
    (sort player team : option string) (d : datetime)
    (other : option (timearg datetime)) (σ : State) :
  isoformat d ≠ "" →
  matches self limit offset sort player team (Some (TDatetime d)) other σ
  = matches self limit offset sort player team
      (Some (TString (isoformat d))) other σ
  ∧ matches self limit offset sort player team other (Some (TDatetime d)) σ
    = matches self limit offset sort player team
        other (Some (TString (isoformat d))) σ
  ∧ dict_get "filter[createdAt-start]"
      (matches_params limit offset sort player team (Some (TDatetime d)) other)
    = Some (PStr (isoformat d))
  ∧ dict_get "filter[createdAt-end]"
      (matches_params limit offset sort player team other (Some (TDatetime d)))
    = Some (PStr (isoformat d)).
Proof.
  intros Hiso%String.eqb_neq.
  unfold matches, matches_params, truthy_time, time_str. rewrite Hiso. simpl.
  split; [done|]. split; [done|]. split.
  - repeat case_match; simplify_eq;
      rewrite ?dict_get_set_ne by done; apply dict_get_set_eq.
  - repeat case_match; simplify_eq; apply dict_get_set_eq.
Qed.

(** C9: [matches(limit=0)] runs exactly as [matches()] does, and, like it,
    sends one request, whose page[limit] is 50. *)
Theorem matches_limit_zero (self : loc) (c : Client) (offset : option Z)
    (sort player team : option string)
    (createdAtStart createdAtEnd : option (timearg datetime)) (σ : State) :
  heap σ !! self = Some c →
  matches self (Some 0) offset sort player team createdAtStart createdAtEnd σ
  = matches self None offset sort player team createdAtStart createdAtEnd σ
  ∧ ∃ (req : Request) (p : list (string * pval)),
      issued σ
        (matches self (Some 0) offset sort player team
           createdAtStart createdAtEnd σ).2 = [req]
      ∧ params req = Some p
      ∧ dict_get "page[limit]" p = Some (PInt 50).
Proof.
  intros Hself. split; [done|].
  unfold matches. change (matches_limit (Some 0)) with 50.
  change (py_range 0 50 max_limit) with [0].
  rewrite (matches_loop_step self c) by done.
  set (p := batch_params _ _ _ _).
  exists (shard_request c "matches" "" (Some p)), p. split; [|split; [done|]].
  - destruct (fetch _ _ ≫= _); simpl; apply issued_app.
  - apply batch_params_limit.
Qed.

(** C1: for a limit [L] of at least 1 (50 when omitted) and an offset [O]
    (0 when omitted), if every batch comes back as a list, however long,
    then [matches] sends exactly ceil(L/50) requests one after the other, the
    [i]-th with page[limit] = min(L - 50 i, 50) and page[offset] = O + 50 i,
    and returns the lists of the batches appended in request order. *)
Theorem matches_batches (self : loc) (c : Client) (limit offset : option Z)
    (sort player team : option string)
    (createdAtStart createdAtEnd : option (timearg datetime))
    (results : nat → list Obj) (σ : State) :
  let L := default 50 limit in
  let O := default 0 offset in
  let n := Z.to_nat ((L + 49) / 50) in
  let request :=
    batch_request c
      (matches_params limit offset sort player team createdAtStart createdAtEnd)
      L O in
  heap σ !! self = Some c →
  1 ≤ L →
  (∀ i : nat, (i < n)%nat →
     fetch (log σ ++ (request <$> seq 0 i)) (request i)
     = Ok (Many (results i))) →
  matches self limit offset sort player team createdAtStart createdAtEnd σ
  = (Ok (concat (results <$> seq 0 n)),
     mkState (heap σ) (log σ ++ (request <$> seq 0 n)))
  ∧ 50 * (Z.of_nat n - 1) < L ≤ 50 * Z.of_nat n
  ∧ ∀ i : nat, (i < n)%nat →
      ∃ p : list (string * pval),
        params (request i) = Some p
        ∧ dict_get "page[limit]" p = Some (PInt (Z.min (L - 50 * Z.of_nat i) 50))
        ∧ dict_get "page[offset]" p = Some (PInt (O + 50 * Z.of_nat i)).
Proof.
  intros L O n request Hself HL Hok. split; [|split].
  - unfold matches.
    rewrite matches_limit_default, matches_offset_default, py_range_batches
      by done.
    fold L O n.
    pose proof (matches_loop_complete self c L O results n 0%nat _ [] σ
                  Hself Hok) as Hrun.
    by replace (L - max_limit * Z.of_nat 0) with L in Hrun by lia.
  - subst n. unfold max_limit in *. Z.div_mod_to_equations. lia.
  - intros i Hi. eexists. split; [done|].
    rewrite batch_params_limit, batch_params_offset. unfold max_limit.
    split; [done|]. do 2 f_equal. lia.
Qed.

(** What [_get] returns on a document, with the included section named by
    the iteration it is read with. *)
Lemma _get_outcome (self : loc) (c : Client)
    (endpoint elid : string) (params : option (list (string * pval)))
    (members : list (string * json)) (σ : State) (result : GetResult) :
  heap σ !! self = Some c →
  answer (log σ) (shard_request c endpoint elid params) = Ok (JObj members) →
  (_get self endpoint elid params σ).1 = Ok result
  ↔ ∃ (todo : list json) (pool : list Obj) (main : json),
      match dict_get "included" members with
      | Some included => json_iter included = Ok todo
      | None => todo = []
      end ∧
      Forall2 (λ raw o, data_to_object raw = Ok o) todo pool ∧
      dict_get "data" members = Some main ∧
      match main with
      | JArr items =>
          ∃ elements : list Obj,
            result = Many elements ∧
            Forall2 (λ raw o, ∃ element,
                       data_to_object raw = Ok element ∧
                       link_to_object element pool = Ok o) items elements
      | _ =>
          ∃ element o : Obj,
            data_to_object main = Ok element ∧
            link_to_object element pool = Ok o ∧
            result = Single o
      end.
Proof.
  intros Hself Hbody. rewrite (_get_run self c) by done. simpl.
  unfold fetch. rewrite Hbody. simpl. split.
  - intros Hdoc.
    assert (∃ todo, match dict_get "included" members with
                    | Some included => json_iter included = Ok todo
                    | None => todo = []
                    end ∧
              (collect_includes todo [] ≫= λ includes,
               dict_item "data" members ≫= λ main,
               match main with
               | JArr items => Many <$> link_elements items includes []
               | _ =>
                   data_to_object main ≫= λ element,
                   link_to_object element includes ≫= λ element,
                   Ok (Single element)
               end) = Ok result) as (todo & Htodo & Hrest).
    { destruct (dict_get "included" members) as [included|].
      - destruct (json_iter included) as [todo|e]; [|done].
        exists todo. split; [done|exact Hdoc].
      - exists []. split; [done|exact Hdoc]. }
    exists todo. clear Hdoc.
    destruct (collect_includes todo []) as [pool|e] eqn:Hpool; [|done].
    apply collect_includes_spec in Hpool as (new & -> & Hnew). simpl in *.
    unfold dict_item in Hrest.
    destruct (dict_get "data" members) as [main|]; [|done]. simpl in Hrest.
    exists new, main. split; [done|]. split; [done|]. split; [done|].
    destruct main as [| | | | |items|];
      try (destruct (data_to_object _) as [element|]; [|done];
           simpl in Hrest;
           destruct (link_to_object element new) as [o|] eqn:?; [|done];
           exists element, o; by simplify_eq/=).
    destruct (link_elements items new []) as [out|] eqn:Hout; [|done].
    apply link_elements_spec in Hout as (elements & -> & Hout).
    exists elements. by simplify_eq/=.
  - intros (todo & pool & main & Htodo & Hpool & Hmain & Hshape).
    assert (collect_includes todo [] = Ok pool) as Hcollect.
    { apply collect_includes_spec. by exists pool. }
    destruct (dict_get "included" members) as [included|].
    + rewrite Htodo. simpl. rewrite Hcollect. simpl.
      unfold dict_item. rewrite Hmain. simpl.
      destruct main; try (destruct Hshape as (el & o & -> & Hl & ->);
                          simpl; by rewrite Hl).
      destruct Hshape as (elements & -> & Hel).
      assert (link_elements items pool [] = Ok elements) as ->; [|done].
      apply link_elements_spec. by exists elements.
    + subst todo. simpl in Hcollect. injection Hcollect as <-. simpl.
      unfold dict_item. rewrite Hmain. simpl.
      destruct main; try (destruct Hshape as (el & o & -> & Hl & ->);
                          simpl; by rewrite Hl).
      destruct Hshape as (elements & -> & Hel).
      assert (link_elements items [] [] = Ok elements) as ->; [|done].
      apply link_elements_spec. by exists elements.
Qed.

(** C2: [_get] on a fetched document returns a result exactly when every
    entity of the included section materializes, in document order, into a
    pool (the empty pool when the section is absent), and the data section,
    if a list, materializes and links entity by entity against that pool
    into a list in document order, or else materializes and links into one
    object; the result is a list in the first case, one object in the
    second.  An included section that is no list is read the way a [for]
    loop reads it: the keys of a dict, the characters of a str; any other
    value is not iterable and gives no result. *)
Theorem _get_document_handling (self : loc) (c : Client)
    (endpoint elid : string) (params : option (list (string * pval)))
    (members : list (string * json)) (σ : State) (result : GetResult) :
  heap σ !! self = Some c →
  answer (log σ) (shard_request c endpoint elid params) = Ok (JObj members) →
  (_get self endpoint elid params σ).1 = Ok result
  ↔ ∃ (pool : list Obj) (main : json),
      match dict_get "included" members with
      | None => pool = []
      | Some (JArr entities) =>
          Forall2 (λ raw o, data_to_object raw = Ok o) entities pool
      | Some (JObj fields) =>
          Forall2 (λ raw o, data_to_object raw = Ok o) (JStr <$> fields.*1) pool
      | Some (JStr s) =>
          Forall2 (λ raw o, data_to_object raw = Ok o) (JStr <$> str_chars s) pool
      | Some _ => False
      end ∧
      dict_get "data" members = Some main ∧
      match main with
      | JArr items =>
          ∃ elements : list Obj,
            result = Many elements ∧
            Forall2 (λ raw o, ∃ element,
                       data_to_object raw = Ok element ∧
                       link_to_object element pool = Ok o) items elements
      | _ =>
          ∃ element o : Obj,
            data_to_object main = Ok element ∧
            link_to_object element pool = Ok o ∧
            result = Single o
      end.
Proof.
  intros Hself Hbody. rewrite (_get_outcome self c) by done. split.
  - intros (todo & pool & main & Htodo & Hpool & Hmain & Hshape).
    exists pool, main. split; [|done].
    destruct (dict_get "included" members) as [included|].
    + destruct included; simpl in Htodo; by simplify_eq.
    + subst todo. by apply Forall2_nil_inv_l in Hpool.
  - intros (pool & main & Hincluded & Hmain & Hshape).
    destruct (dict_get "included" members) as [included|].
    + destruct included; try done; eexists _, pool, main; by simpl.
    + subst pool. by exists [], [], main.
Qed.

(** ** Beyond the contract: helper facts *)

Lemma page_limit_batch (c : Client) (params : list (string * pval))
    (L O : Z) (i : nat) :
  page_limit (batch_request c params L O i)
  = Z.min (L - max_limit * Z.of_nat i) max_limit.
Proof.
  unfold page_limit, batch_request, shard_request. simpl.
  by rewrite batch_params_limit.
Qed.

Lemma page_offset_batch (c : Client) (params : list (string * pval))
    (L O : Z) (i : nat) :
  page_offset (batch_request c params L O i) = max_limit * Z.of_nat i + O.
Proof.
  unfold page_offset, batch_request, shard_request. simpl.
  by rewrite batch_params_offset.
Qed.

(** The page sizes of the batches of a limit [L] add up to what is left of
    [L] at the first of them. *)
Lemma sum_page_limits (L : Z) (n : nat) :
  ∀ j : nat,
  (1 ≤ n)%nat →
  50 * (Z.of_nat (j + n) - 1) < L ≤ 50 * Z.of_nat (j + n) →
  foldr Z.add 0
    ((λ i : nat, Z.min (L - max_limit * Z.of_nat i) max_limit) <$> seq j n)
  = L - 50 * Z.of_nat j.
Proof.
  unfold max_limit. induction n as [|n IH]; intros j Hn HL; [lia|].
  change (seq j (S n)) with (j :: seq (S j) n). rewrite fmap_cons. simpl foldr.
  destruct n as [|n].
  - simpl. lia.
  - rewrite IH by lia. lia.
Qed.

(** A filter whose argument is true is in [params], as a str. *)
Lemma matches_params_sends (limit offset : option Z)
    (sort player team : option string)
    (createdAtStart createdAtEnd : option (timearg datetime)) :
  let params := matches_params limit offset sort player team
                  createdAtStart createdAtEnd in
  (∀ s, sort = Some s → s ≠ "" → dict_get "sort" params = Some (PStr s)) ∧
  (∀ s, player = Some s → s ≠ "" →
     dict_get "filter[playerNames]" params = Some (PStr s)) ∧
  (∀ s, team = Some s → s ≠ "" →
     dict_get "filter[teamNames]" params = Some (PStr s)) ∧
  (∀ t, createdAtStart = Some t → truthy_time createdAtStart = true →
     dict_get "filter[createdAt-start]" params = Some (PStr (time_str t))) ∧
  (∀ t, createdAtEnd = Some t → truthy_time createdAtEnd = true →
     dict_get "filter[createdAt-end]" params = Some (PStr (time_str t))).
Proof.
  unfold matches_params. repeat split.
  - intros s -> Hs%String.eqb_neq. simpl. rewrite Hs. simpl.
    repeat case_match; simplify_eq;
      rewrite ?dict_get_set_ne by done; apply dict_get_set_eq.
  - intros s -> Hs%String.eqb_neq. simpl. rewrite Hs. simpl.
    repeat case_match; simplify_eq;
      rewrite ?dict_get_set_ne by done; apply dict_get_set_eq.
  - intros s -> Hs%String.eqb_neq. simpl. rewrite Hs. simpl.
    repeat case_match; simplify_eq;
      rewrite ?dict_get_set_ne by done; apply dict_get_set_eq.
  - intros t -> ->.
    repeat case_match; simplify_eq;
      rewrite ?dict_get_set_ne by done; apply dict_get_set_eq.
  - intros t -> ->. apply dict_get_set_eq.
Qed.

(** The first loop of [_get] stops at the first entity that does not
    materialize. *)
Lemma collect_includes_raises (good : list json) (bad : json)
    (rest : list json) (e : exn) :
  ∀ includes : list Obj,
  Forall (λ raw, ∃ o, data_to_object raw = Ok o) good →
  data_to_object bad = Raise e →
  collect_includes (good ++ bad :: rest) includes = Raise e.
Proof.
  induction good as [|raw good IH]; intros includes Hgood Hbad; simpl.
  - by rewrite Hbad.
  - apply Forall_cons in Hgood as [[o ->] Hgood]. simpl. by apply IH.
Qed.

(** A loop that returns has sent every batch. *)
Lemma matches_loop_returns (self : loc) (c : Client) (L O : Z) (n : nat) :
  ∀ (j : nat) (params : list (string * pval)) (acc out : list Obj)
    (σ σ' : State),
  heap σ !! self = Some c →
  matches_loop self ((λ i : nat, max_limit * Z.of_nat i) <$> seq j n)
    (L - max_limit * Z.of_nat j) O params acc σ = (Ok out, σ') →
  σ' = mkState (heap σ) (log σ ++ (batch_request c params L O <$> seq j n)).
Proof.
  induction n as [|n IH]; intros j params acc out σ σ' Hself Hrun.
  - simpl in Hrun. injection Hrun as _ <-. destruct σ; simpl.
    by rewrite app_nil_r.
  - change (seq j (S n)) with (j :: seq (S j) n) in Hrun |- *.
    rewrite fmap_cons, (matches_loop_step self c) in Hrun by done.
    fold (batch_request c params L O j) in Hrun.
    destruct (fetch _ _ ≫= list_iadd acc) as [acc'|e]; [|done].
    replace (L - max_limit * Z.of_nat j - max_limit)
      with (L - max_limit * Z.of_nat (S j)) in Hrun by lia.
    apply IH in Hrun as ->; [|done]. simpl.
    by rewrite batch_requests_again, <-app_assoc.
Qed.

(** [matches] seen as its loop: the requests are the first [k] planned
    batches, a batch whose fetch raises is the last, and a call that
    returns has sent them all. *)
Lemma matches_trace (self : loc) (c : Client) (limit offset : option Z)
    (sort player team : option string)
    (createdAtStart createdAtEnd : option (timearg datetime))
    (σ σ' : State) (r : Res (list Obj)) :
  let L := matches_limit limit in
  let n := Z.to_nat ((L + 49) / 50) in
  let request :=
    batch_request c
      (matches_params limit offset sort player team createdAtStart createdAtEnd)
      L (matches_offset offset) in
  heap σ !! self = Some c →
  matches self limit offset sort player team createdAtStart createdAtEnd σ
    = (r, σ') →
  ∃ k : nat,
    (k ≤ n)%nat ∧
    σ' = mkState (heap σ) (log σ ++ (request <$> seq 0 k)) ∧
    (∀ (i : nat) (e : exn),
       (i < k)%nat →
       fetch (log σ ++ (request <$> seq 0 i)) (request i) = Raise e →
       k = S i ∧ r = Raise e) ∧
    (∀ out : list Obj, r = Ok out → k = n).
Proof.
  intros L n request Hself Hrun. unfold matches in Hrun.
  rewrite py_range_batches in Hrun. fold L n in Hrun.
  assert (matches_loop self ((λ i : nat, max_limit * Z.of_nat i) <$> seq 0 n)
            (L - max_limit * Z.of_nat 0) (matches_offset offset)
            (matches_params limit offset sort player team
               createdAtStart createdAtEnd) [] σ = (r, σ')) as Hloop.
  { by replace (L - max_limit * Z.of_nat 0) with L by lia. }
  clear Hrun.
  destruct (matches_loop_trace self c L (matches_offset offset) n 0%nat _ []
              σ σ' r Hself Hloop) as (k & Hk & Hσ & Hfail).
  exists k. split; [done|]. split; [done|]. split; [done|].
  intros out ->.
  apply (matches_loop_returns self c) in Hloop; [|done].
  rewrite Hσ in Hloop. injection Hloop as Hlog%app_inv_head.
  apply (f_equal length) in Hlog.
  by rewrite !length_fmap, !length_seq in Hlog.
Qed.

(** ** Beyond the contract *)

(** X1: a client that was just constructed, with no title selected, still
    sends the request of [match(id)]: to the path "shards//matches/<id>" of
    its datacenter, with an empty X-TITLE-ID; nothing is checked locally. *)
Theorem unconfigured_client_request (apikey datacenter elid : string)
    (σ : State) :
  ∃ (self : loc) (σ1 : State),
    __init__ apikey datacenter σ = (Ok self, σ1) ∧
    heap σ !! self = None ∧
    issued σ1 (match_ self elid σ1).2
    = [mkRequest
         (("https://api." +:+ datacenter +:+ ".gamelockerapp.com/")
            +:+ "shards//matches/" +:+ elid)
         [("Authorization", "Bearer " +:+ apikey);
          ("X-TITLE-ID", "");
          ("Accept", "application/vnd.api+json")]
         None].
Proof.
  destruct (__init___run apikey datacenter σ) as (self & Hfresh & Hinit).
  eexists self, _. split; [exact Hinit|]. split; [done|].
  unfold match_. erewrite _get_run; [|apply lookup_insert_eq].
  unfold issued. simpl. by rewrite drop_app_length.
Qed.

(** X2: when the service answers, [status] sends one request, to the base
    URL followed by "status", without query parameters, and returns the
    parsed body as it is, whatever JSON value that is. *)
Theorem status_returns_body (self : loc) (c : Client) (σ : State)
    (http : Response) (body : json) :
  let request :=
    mkRequest (_apiurl c +:+ "status")
      [("Authorization", "Bearer " +:+ apikey c);
       ("X-TITLE-ID", title c);
       ("Accept", "application/vnd.api+json")]
      None in
  heap σ !! self = Some c →
  server (log σ) request = Ok http →
  raise_for_status http = None →
  json_body http = Ok body →
  status self σ = (Ok body, mkState (heap σ) (log σ ++ [request])).
Proof.
  intros request Hself Hhttp Hstatus Hbody. subst request. unfold status.
  rewrite (_req_run self c) by done. f_equal.
  unfold answer, client_headers. rewrite Hhttp. simpl.
  unfold check_status. by rewrite Hstatus.
Qed.

(** X3: after [Vainglory(r)], [match(id)] on the client it returned asks
    for "shards/<r>/matches/<id>" under the title "semc-vainglory",
    whatever title and region the client had before. *)
Theorem Vainglory_then_match (self : loc) (c : Client) (region elid : string)
    (σ : State) :
  heap σ !! self = Some c →
  ∃ (self' : loc) (σ1 : State),
    Vainglory self region σ = (Ok self', σ1) ∧
    issued σ1 (match_ self' elid σ1).2
    = [mkRequest (_apiurl c +:+ "shards/" +:+ region +:+ "/matches/" +:+ elid)
         [("Authorization", "Bearer " +:+ apikey c);
          ("X-TITLE-ID", "semc-vainglory");
          ("Accept", "application/vnd.api+json")]
         None].
Proof.
  intros Hself. eexists self, _. split; [by apply Vainglory_run|].
  unfold match_. erewrite _get_run; [|apply lookup_insert_eq].
  unfold issued. simpl. by rewrite drop_app_length.
Qed.

(** X4: selecting a region twice is selecting the last one: [Vainglory(r1)]
    followed by [Vainglory(r2)] on its result is [Vainglory(r2)]. *)
Theorem Vainglory_twice (self : loc) (region1 region2 : string) (σ : State) :
  (self' ← Vainglory self region1; Vainglory self' region2) σ
  = Vainglory self region2 σ.
Proof.
  unfold mbind at 1. unfold M_bind.
  destruct (heap σ !! self) as [c|] eqn:Hself.
  - rewrite (Vainglory_run self c region1 σ Hself),
      (Vainglory_run self c region2 σ Hself).
    erewrite Vainglory_run; [|apply lookup_insert_eq]. simpl.
    by rewrite insert_insert_eq.
  - unfold Vainglory, mbind, M_bind, write. by rewrite Hself.
Qed.

(** X5: with a negative limit, [matches] sends nothing and returns the
    empty list. *)
Theorem matches_negative_limit (self : loc) (limit : Z) (offset : option Z)
    (sort player team : option string)
    (createdAtStart createdAtEnd : option (timearg datetime)) (σ : State) :
  limit < 0 →
  matches self (Some limit) offset sort player team createdAtStart createdAtEnd σ
  = (Ok [], σ).
Proof.
  intros Hneg. unfold matches, matches_limit, truthy_int. simpl.
  destruct (Z.eqb_spec limit 0); [lia|]. simpl.
  unfold py_range, max_limit.
  replace (Z.to_nat ((limit - 0 + 50 - 1) / 50)) with 0%nat; [done|].
  assert ((limit - 0 + 50 - 1) / 50 ≤ 0) by (Z.div_mod_to_equations; lia).
  lia.
Qed.

(** X6: a falsy argument is an argument left out: [matches] with offset 0
    and empty strs for sort, player, team and both ends of the interval
    runs as [matches] with none of them. *)
Theorem matches_falsy_arguments (self : loc) (limit : option Z) (σ : State) :
  matches self limit (Some 0) (Some "") (Some "") (Some "")
    (Some (TString "")) (Some (TString "")) σ
  = matches self limit None None None None None None σ.
Proof. done. Qed.

(** X7: whatever the service does, [matches] with a limit [L] of at least
    1 (50 when omitted) never sends more than ceil(L/50) requests. *)
Theorem matches_request_bound (self : loc) (c : Client)
    (limit offset : option Z) (sort player team : option string)
    (createdAtStart createdAtEnd : option (timearg datetime))
    (σ σ' : State) (r : Res (list Obj)) :
  let L := default 50 limit in
  heap σ !! self = Some c →
  1 ≤ L →
  matches self limit offset sort player team createdAtStart createdAtEnd σ
    = (r, σ') →
  50 * (Z.of_nat (length (issued σ σ')) - 1) < L.
Proof.
  intros L Hself HL Hrun.
  apply (matches_trace self c) in Hrun as (k & Hk & -> & _); [|done].
  rewrite issued_app, length_fmap, length_seq.
  rewrite matches_limit_default in Hk by done. fold L in Hk.
  Z.div_mod_to_equations. lia.
Qed.

(** X8: when [matches] with a limit [L] of at least 1 returns a list, it
    has sent exactly ceil(L/50) requests, each asking for between 1 and 50
    results, and together for exactly [L]. *)
Theorem matches_asks_for_limit (self : loc) (c : Client)
    (limit offset : option Z) (sort player team : option string)
    (createdAtStart createdAtEnd : option (timearg datetime))
    (σ σ' : State) (out : list Obj) :
  let L := default 50 limit in
  heap σ !! self = Some c →
  1 ≤ L →
  matches self limit offset sort player team createdAtStart createdAtEnd σ
    = (Ok out, σ') →
  50 * (Z.of_nat (length (issued σ σ')) - 1) < L
    ≤ 50 * Z.of_nat (length (issued σ σ'))
  ∧ Forall (λ req, 1 ≤ page_limit req ≤ 50) (issued σ σ')
  ∧ foldr Z.add 0 (page_limit <$> issued σ σ') = L.
Proof.
  intros L Hself HL Hrun.
  apply (matches_trace self c) in Hrun as (k & _ & -> & _ & Hall); [|done].
  rewrite (Hall out eq_refl). clear k Hall.
  rewrite issued_app, length_fmap, length_seq, matches_limit_default by done.
  fold L. set (n := Z.to_nat ((L + 49) / 50)).
  assert (50 * (Z.of_nat n - 1) < L ≤ 50 * Z.of_nat n) as Hn.
  { subst n. Z.div_mod_to_equations. lia. }
  split; [done|]. split.
  - apply Forall_fmap, Forall_forall. intros i [_ Hi]%elem_of_seq. simpl.
    rewrite page_limit_batch. unfold max_limit. lia.
  - rewrite <-list_fmap_compose.
    rewrite (list_fmap_ext _ (λ i : nat, Z.min (L - max_limit * Z.of_nat i) max_limit)).
    + rewrite sum_page_limits; lia.
    + intros i x _. simpl. apply page_limit_batch.
Qed.

(** X9: the pages [matches] asks for follow one another without gap or
    overlap: the first starts at the offset (0 when omitted), and each
    further one starts where the one before it ends. *)
Theorem matches_pages_contiguous (self : loc) (c : Client)
    (limit offset : option Z) (sort player team : option string)
    (createdAtStart createdAtEnd : option (timearg datetime))
    (σ σ' : State) (r : Res (list Obj)) :
  heap σ !! self = Some c →
  matches self limit offset sort player team createdAtStart createdAtEnd σ
    = (r, σ') →
  (∀ req : Request,
     issued σ σ' !! 0%nat = Some req → page_offset req = default 0 offset) ∧
  (∀ (i : nat) (req req' : Request),
     issued σ σ' !! i = Some req →
     issued σ σ' !! S i = Some req' →
     page_offset req' = page_offset req + page_limit req).
Proof.
  intros Hself Hrun.
  apply (matches_trace self c) in Hrun as (k & Hk & -> & _); [|done].
  rewrite issued_app. split.
  - intros req (i & -> & [-> _]%lookup_seq)%list_lookup_fmap_Some.
    rewrite page_offset_batch, matches_offset_default. unfold max_limit. lia.
  - intros i req req'
      (? & -> & [-> Hi]%lookup_seq)%list_lookup_fmap_Some
      (? & -> & [-> Hi']%lookup_seq)%list_lookup_fmap_Some.
    rewrite !page_offset_batch, page_limit_batch. unfold max_limit in *.
    simpl. Z.div_mod_to_equations. lia.
Qed.

(** X10: a filter that was supplied and is not empty is sent, as a str, in
    every request of [matches]: sort, player and team as they are, a
    [datetime] in its ISO-8601 form. *)
Theorem matches_sends_filters (self : loc) (c : Client)
    (limit offset : option Z) (sort player team : option string)
    (createdAtStart createdAtEnd : option (timearg datetime))
    (σ σ' : State) (r : Res (list Obj)) (req : Request) :
  heap σ !! self = Some c →
  matches self limit offset sort player team createdAtStart createdAtEnd σ
    = (r, σ') →
  req ∈ issued σ σ' →
  ∃ p : list (string * pval),
    params req = Some p ∧
    (∀ s, sort = Some s → s ≠ "" → dict_get "sort" p = Some (PStr s)) ∧
    (∀ s, player = Some s → s ≠ "" →
       dict_get "filter[playerNames]" p = Some (PStr s)) ∧
    (∀ s, team = Some s → s ≠ "" →
       dict_get "filter[teamNames]" p = Some (PStr s)) ∧
    (∀ d, createdAtStart = Some (TDatetime d) →
       dict_get "filter[createdAt-start]" p = Some (PStr (isoformat d))) ∧
    (∀ s, createdAtStart = Some (TString s) → s ≠ "" →
       dict_get "filter[createdAt-start]" p = Some (PStr s)) ∧
    (∀ d, createdAtEnd = Some (TDatetime d) →
       dict_get "filter[createdAt-end]" p = Some (PStr (isoformat d))) ∧
    (∀ s, createdAtEnd = Some (TString s) → s ≠ "" →
       dict_get "filter[createdAt-end]" p = Some (PStr s)).
Proof.
  intros Hself Hrun Hreq.
  apply (matches_trace self c) in Hrun as (k & _ & -> & _); [|done].
  rewrite issued_app in Hreq.
  apply list_elem_of_fmap in Hreq as (i & -> & _). eexists. split; [done|].
  rewrite !batch_params_other by done.
  destruct (matches_params_sends limit offset sort player team
              createdAtStart createdAtEnd) as (Hs & Hp & Ht & Hcs & Hce).
  repeat split; [done..| | | |].
  - intros d ->. by apply (Hcs (TDatetime d)).
  - intros s -> Hne%String.eqb_neq. apply (Hcs (TString s)); [done|].
    simpl. by rewrite Hne.
  - intros d ->. by apply (Hce (TDatetime d)).
  - intros s -> Hne%String.eqb_neq. apply (Hce (TString s)); [done|].
    simpl. by rewrite Hne.
Qed.

(** X11: when [requests.get] itself raises for a request of a call, or the
    body of an accepted answer is no JSON, the call raises that exception
    and that request is the last one it has sent. *)
Theorem transport_failure_is_final (self : loc) (c : Client) (call : Call)
    (σ σ' : State) (r : Res Value) (i : nat) (req : Request) (e : exn) :
  heap σ !! self = Some c →
  run self call σ = (r, σ') →
  (length (log σ) ≤ i)%nat →
  log σ' !! i = Some req →
  server (take i (log σ')) req = Raise e
    ∨ (∃ http : Response,
         server (take i (log σ')) req = Ok http ∧
         raise_for_status http = None ∧
         json_body http = Raise e) →
  r = Raise e ∧ length (log σ') = S i.
Proof.
  intros Hself Hrun Hi Hreq Hfailure.
  apply (run_trace self c) in Hrun as (reqs & -> & _ & Hfail); [|done].
  simpl in *. rewrite lookup_app_r in Hreq by done.
  destruct (Hfail _ _ e Hreq) as [Hlen ->].
  - unfold answer.
    replace (log σ ++ take (i - length (log σ)) reqs)
      with (take i (log σ ++ reqs)).
    + destruct Hfailure as [->|(http & -> & Hstatus & Hbody)]; [done|].
      simpl. unfold check_status. by rewrite Hstatus.
    + rewrite take_app. f_equal. apply take_ge. lia.
  - split; [done|]. rewrite length_app, Hlen. lia.
Qed.

(** X12: when the document of a batch cannot be turned into objects (no
    data section, an entity that does not materialize or link), [matches]
    raises that exception and sends no further batch. *)
Theorem matches_document_failure_is_final (self : loc) (c : Client)
    (limit offset : option Z) (sort player team : option string)
    (createdAtStart createdAtEnd : option (timearg datetime))
    (σ σ' : State) (r : Res (list Obj)) (i : nat) (req : Request)
    (http : Response) (body : json) (e : exn) :
  heap σ !! self = Some c →
  matches self limit offset sort player team createdAtStart createdAtEnd σ
    = (r, σ') →
  (length (log σ) ≤ i)%nat →
  log σ' !! i = Some req →
  server (take i (log σ')) req = Ok http →
  raise_for_status http = None →
  json_body http = Ok body →
  _get_document body = Raise e →
  r = Raise e ∧ length (log σ') = S i.
Proof.
  intros Hself Hrun Hi Hreq Hhttp Hstatus Hbody Hdoc.
  apply (matches_trace self c) in Hrun as (k & _ & -> & Hfail & _); [|done].
  simpl in *. rewrite lookup_app_r in Hreq by done.
  apply list_lookup_fmap_Some in Hreq as (i' & -> & [-> Hi']%lookup_seq).
  simpl in *.
  destruct (Hfail (i - length (log σ))%nat e Hi') as [-> ->].
  - unfold fetch, answer.
    replace (log σ ++ _) with
      (take i (log σ ++ (batch_request c
         (matches_params limit offset sort player team createdAtStart createdAtEnd)
         (matches_limit limit) (matches_offset offset) <$> seq 0 k))).
    + rewrite Hhttp. simpl. unfold check_status. rewrite Hstatus. simpl.
      by rewrite Hbody.
    + rewrite take_app, take_ge by lia. f_equal.
      rewrite <-fmap_take, take_seq. f_equal. f_equal. lia.
  - split; [done|]. rewrite length_app, length_fmap, length_seq. lia.
Qed.

(** X13: when the service answers the one batch of [matches] (a limit of
    at most 50) with a document whose data section is a single entity,
    [matches] returns what iterating the linked object yields, and raises
    what that iteration raises. *)
Theorem matches_single_object_batch (self : loc) (c : Client)
    (limit offset : option Z) (sort player team : option string)
    (createdAtStart createdAtEnd : option (timearg datetime))
    (element : Obj) (σ : State) :
  let L := default 50 limit in
  let request :=
    batch_request c
      (matches_params limit offset sort player team createdAtStart createdAtEnd)
      L (default 0 offset) 0 in
  heap σ !! self = Some c →
  1 ≤ L ≤ 50 →
  fetch (log σ) request = Ok (Single element) →
  matches self limit offset sort player team createdAtStart createdAtEnd σ
  = (obj_iter element, mkState (heap σ) (log σ ++ [request])).
Proof.
  intros L request Hself HL Hfetch. subst request. unfold matches.
  rewrite matches_limit_default, matches_offset_default, py_range_batches
    by (fold L; lia).
  fold L. replace (Z.to_nat ((L + 49) / 50)) with 1%nat
    by (Z.div_mod_to_equations; lia).
  change (seq 0 1) with [0%nat]. rewrite list_fmap_singleton.
  rewrite (matches_loop_step self c) by done.
  unfold batch_request in Hfetch |- *.
  replace (L - max_limit * Z.of_nat 0) with L in Hfetch |- *
    by (unfold max_limit; lia).
  rewrite Hfetch. simpl.
  by destruct (obj_iter element).
Qed.

(** X14: a document without a data section makes [_get] raise
    [KeyError("data")], once its included section, if it has one, has
    materialized. *)
Theorem _get_missing_data (self : loc) (c : Client) (endpoint elid : string)
    (params : option (list (string * pval)))
    (members : list (string * json)) (σ : State) :
  heap σ !! self = Some c →
  answer (log σ) (shard_request c endpoint elid params) = Ok (JObj members) →
  dict_get "data" members = None →
  (∀ included : json,
     dict_get "included" members = Some included →
     ∃ (todo : list json) (pool : list Obj),
       json_iter included = Ok todo ∧
       Forall2 (λ raw o, data_to_object raw = Ok o) todo pool) →
  _get self endpoint elid params σ
  = (Raise (KeyError "data"),
     mkState (heap σ) (log σ ++ [shard_request c endpoint elid params])).
Proof.
  intros Hself Hbody Hdata Hincluded. rewrite (_get_run self c) by done.
  f_equal. unfold fetch. rewrite Hbody. simpl. unfold dict_item.
  rewrite Hdata.
  destruct (dict_get "included" members) as [included|]; [|done].
  destruct (Hincluded included eq_refl) as (todo & pool & -> & Hpool). simpl.
  assert (collect_includes todo [] = Ok pool) as ->; [|done].
  apply collect_includes_spec. by exists pool.
Qed.

(** X15: the included section comes first: when one of its entities does
    not materialize, [_get] raises that exception, whatever the data
    section holds and whether there is one. *)
Theorem _get_included_failure_first (self : loc) (c : Client)
    (endpoint elid : string) (params : option (list (string * pval)))
    (members : list (string * json)) (good : list json) (bad : json)
    (rest : list json) (e : exn) (σ : State) :
  heap σ !! self = Some c →
  answer (log σ) (shard_request c endpoint elid params) = Ok (JObj members) →
  dict_get "included" members = Some (JArr (good ++ bad :: rest)) →
  Forall (λ raw, ∃ o, data_to_object raw = Ok o) good →
  data_to_object bad = Raise e →
  _get self endpoint elid params σ
  = (Raise e,
     mkState (heap σ) (log σ ++ [shard_request c endpoint elid params])).
Proof.
  intros Hself Hbody Hincluded Hgood Hbad. rewrite (_get_run self c) by done.
  f_equal. unfold fetch. rewrite Hbody. simpl. rewrite Hincluded. simpl.
  by rewrite (collect_includes_raises good bad rest e).
Qed.

End Gamelocker.

(** ** The contract on the sample service *)

Local Abbreviation sample_run :=
  (run json sample_data_to_object sample_link_to_object sample_obj_iter
     sample_datetime sample_isoformat sample_server).
Local Abbreviation flaky_run :=
  (run json sample_data_to_object sample_link_to_object sample_obj_iter
     sample_datetime sample_isoformat flaky_server).
Local Abbreviation sample_matches :=
  (matches json sample_data_to_object sample_link_to_object sample_obj_iter
     sample_datetime sample_isoformat sample_server).
Local Abbreviation sample_get :=
  (_get json sample_data_to_object sample_link_to_object sample_server).
Local Abbreviation sample_fetch :=
  (fetch json sample_data_to_object sample_link_to_object sample_server).
Local Abbreviation sample_params :=
  (matches_params sample_datetime sample_isoformat).

(** [matches(limit=120)]: three requests, page[limit] 50, 50 and 20 at
    page[offset] 0, 50 and 100, and the three batches one after the other. *)
Lemma matches_batches_witness :
  let request := batch_request sample_client [("page[limit]", PInt 120)] 120 0 in
  sample_matches 0%nat (Some 120) None None None None None None sample_state
  = (Ok (replicate 6 sample_match),
     mkState (heap sample_state) (request <$> [0; 1; 2]%nat))
  ∧ 50 * (3 - 1) < 120 ≤ 50 * 3
  ∧ ∀ i : nat, (i < 3)%nat →
      ∃ p : list (string * pval),
        params (request i) = Some p
        ∧ dict_get "page[limit]" p = Some (PInt (Z.min (120 - 50 * Z.of_nat i) 50))
        ∧ dict_get "page[offset]" p = Some (PInt (0 + 50 * Z.of_nat i)).
Proof.
  apply (matches_batches json sample_data_to_object sample_link_to_object
           sample_obj_iter sample_datetime sample_isoformat sample_server
           0%nat sample_client (Some 120) None None None None None None
           (λ i, replicate (S i) sample_match) sample_state).
  - reflexivity.
  - simpl. lia.
  - intros [|[|[|i]]] Hi; [reflexivity..|]. vm_compute in Hi. lia.
Defined.

(** A character of several bytes is one character. *)
Example str_chars_code_points : str_chars "aé€b" = ["a"; "é"; "€"; "b"].
Proof. reflexivity. Qed.

(** [matches(limit=30)]: one request, with page[limit] 30. *)
Example matches_limit_30 :
  (λ req, dict_get "page[limit]" <$> params req) <$>
    log (sample_matches 0%nat (Some 30) None None None None None None
           sample_state).2
  = [Some (Some (PInt 30))].
Proof. reflexivity. Qed.

Lemma _get_document_handling_witness :
  (sample_get 0%nat "matches" "" None sample_state).1 = Ok (Many json [sample_match])
  ↔ ∃ (pool : list json) (main : json),
      Forall2 (λ raw o, sample_data_to_object raw = Ok o)
        [JObj [("type", JStr "player"); ("id", JStr "p1")]] pool ∧
      Some (JArr [sample_match]) = Some main ∧
      match main with
      | JArr items =>
          ∃ elements : list json,
            Many json [sample_match] = Many json elements ∧
            Forall2 (λ raw o, ∃ element,
                       sample_data_to_object raw = Ok element ∧
                       sample_link_to_object element pool = Ok o) items elements
      | _ =>
          ∃ element o : json,
            sample_data_to_object main = Ok element ∧
            sample_link_to_object element pool = Ok o ∧
            Many json [sample_match] = Single json o
      end.
Proof.
  apply (_get_document_handling json sample_data_to_object
           sample_link_to_object sample_server 0%nat sample_client
           "matches" "" None
           [("data", JArr [sample_match]);
            ("included", JArr [JObj [("type", JStr "player"); ("id", JStr "p1")]])]
           sample_state (Many json [sample_match])); reflexivity.
Defined.

(** [matches()] sends page[limit] and page[offset] although neither was
    supplied: C3 does not hold for these two keys. *)
Lemma matches_sends_page_keys_unasked :
  ¬ (∀ (req : Request) (p : list (string * pval)),
       req ∈ issued sample_state
               (sample_matches 0%nat None None None None None None None
                  sample_state).2 →
       params req = Some p →
       dict_get "page[limit]" p = None ∧ dict_get "page[offset]" p = None).
Proof.
  intros Hclaim.
  destruct (Hclaim (batch_request sample_client [] 50 0 0)
              [("page[limit]", PInt 50); ("page[offset]", PInt 0)])
    as [Hlimit _].
  - vm_compute. by left.
  - reflexivity.
  - discriminate Hlimit.
Qed.

Lemma matches_optional_params_witness :
  ∃ p : list (string * pval),
    params (batch_request sample_client [("sort", PStr "createdAt")] 50 0 0)
      = Some p ∧
    (Some "createdAt" = None → dict_get "sort" p = None) ∧
    (@None string = None → dict_get "filter[playerNames]" p = None) ∧
    (@None string = None → dict_get "filter[teamNames]" p = None) ∧
    (@None (timearg sample_datetime) = None →
       dict_get "filter[createdAt-start]" p = None) ∧
    (@None (timearg sample_datetime) = None →
       dict_get "filter[createdAt-end]" p = None) ∧
    is_Some (dict_get "page[limit]" p) ∧
    is_Some (dict_get "page[offset]" p).
Proof.
  apply (matches_optional_params json sample_data_to_object
           sample_link_to_object sample_obj_iter sample_datetime
           sample_isoformat sample_server 0%nat sample_client
           None None (Some "createdAt") None None None None sample_state
           (sample_matches 0%nat None None (Some "createdAt") None None None
              None sample_state).2
           (sample_matches 0%nat None None (Some "createdAt") None None None
              None sample_state).1).
  - reflexivity.
  - reflexivity.
  - vm_compute. by left.
Defined.

(** The path of a list call is not "shards/<region>/matches": C4 does not
    hold for [matches]. *)
Lemma matches_path_ends_in_slash :
  ¬ (∀ req : Request,
       req ∈ issued sample_state
               (sample_matches 0%nat None None None None None None None
                  sample_state).2 →
       url req
       = _apiurl sample_client +:+ "shards/" +:+ region sample_client +:+ "/matches").
Proof.
  intros Hclaim.
  specialize (Hclaim (batch_request sample_client [] 50 0 0)).
  assert (url (batch_request sample_client [] 50 0 0)
          = "https://api.dc01.gamelockerapp.com/shards/na/matches/") as Hurl
    by reflexivity.
  rewrite Hurl in Hclaim. discriminate Hclaim. vm_compute. by left.
Qed.

Lemma shard_paths_witness :
  url (batch_request sample_client [] 50 0 0)
  = "https://api.dc01.gamelockerapp.com/" +:+ "shards/" +:+ "na" +:+ "/matches/".
Proof.
  apply (shard_paths json sample_data_to_object sample_link_to_object
           sample_obj_iter sample_datetime sample_isoformat sample_server
           0%nat sample_client
           (CallMatches sample_datetime None None None None None None None)
           sample_state
           (sample_run 0%nat
              (CallMatches sample_datetime None None None None None None None)
              sample_state).2
           (sample_run 0%nat
              (CallMatches sample_datetime None None None None None None None)
              sample_state).1).
  - reflexivity.
  - reflexivity.
  - vm_compute. by left.
Defined.

Lemma requests_carry_headers_witness :
  headers (mkRequest "https://api.dc01.gamelockerapp.com/status"
             [("Authorization", "Bearer getoffmylawn");
              ("X-TITLE-ID", "semc-vainglory");
              ("Accept", "application/vnd.api+json")] None)
  = [("Authorization", "Bearer " +:+ "getoffmylawn");
     ("X-TITLE-ID", "semc-vainglory");
     ("Accept", "application/vnd.api+json")].
Proof.
  apply (requests_carry_headers json sample_data_to_object
           sample_link_to_object sample_obj_iter sample_datetime
           sample_isoformat sample_server 0%nat sample_client
           (CallStatus sample_datetime) sample_state
           (sample_run 0%nat (CallStatus sample_datetime) sample_state).2
           (sample_run 0%nat (CallStatus sample_datetime) sample_state).1).
  - reflexivity.
  - reflexivity.
  - vm_compute. by left.
Defined.

(** [matches(limit=120)] against the service that fails on its second
    request: the call raises that error after two requests. *)
Lemma http_error_is_final_witness :
  let call := CallMatches sample_datetime (Some 120) None None None None None None in
  (flaky_run 0%nat call sample_state).1 = Raise (HTTPError 503)
  ∧ length (log (flaky_run 0%nat call sample_state).2) = 2%nat.
Proof.
  intros call.
  apply (http_error_is_final json sample_data_to_object sample_link_to_object
           sample_obj_iter sample_datetime sample_isoformat flaky_server
           0%nat sample_client call sample_state
           (flaky_run 0%nat call sample_state).2
           (flaky_run 0%nat call sample_state).1
           1%nat
           (batch_request sample_client [("page[limit]", PInt 120)] 120 0 1)
           (mkResponse (Some (HTTPError 503)) (Raise (ValueError "no JSON body")))
           (HTTPError 503)).
  - reflexivity.
  - reflexivity.
  - simpl. lia.
  - reflexivity.
  - reflexivity.
  - reflexivity.
Defined.

Lemma createdAt_datetime_or_str_witness :
  let d := mkDatetime 2017 2 28 12 30 0 in
  sample_matches 0%nat None None None None None (Some (TDatetime d)) None
    sample_state
  = sample_matches 0%nat None None None None None
      (Some (TString "2017-02-28T12:30:00")) None sample_state
  ∧ sample_matches 0%nat None None None None None None (Some (TDatetime d))
      sample_state
    = sample_matches 0%nat None None None None None
        None (Some (TString "2017-02-28T12:30:00")) sample_state
  ∧ dict_get "filter[createdAt-start]"
      (sample_params None None None None None (Some (TDatetime d)) None)
    = Some (PStr "2017-02-28T12:30:00")
  ∧ dict_get "filter[createdAt-end]"
      (sample_params None None None None None None (Some (TDatetime d)))
    = Some (PStr "2017-02-28T12:30:00").
Proof.
  intros d.
  apply (createdAt_datetime_or_str json sample_data_to_object
           sample_link_to_object sample_obj_iter sample_datetime
           sample_isoformat sample_server 0%nat None None None None None
           d None sample_state).
  discriminate.
Defined.

Lemma Vainglory_frame_witness :
  Vainglory 0%nat "eu" sample_state
  = (Ok 0%nat,
     mkState (<[0%nat := {| apikey := "getoffmylawn";
                            _apiurl := "https://api.dc01.gamelockerapp.com/";
                            title := "semc-vainglory";
                            region := "eu" |}]> (heap sample_state))
             []).
Proof. apply (Vainglory_frame 0%nat sample_client "eu" sample_state). reflexivity. Defined.

Lemma matches_limit_zero_witness :
  sample_matches 0%nat (Some 0) None None None None None None sample_state
  = sample_matches 0%nat None None None None None None None sample_state
  ∧ ∃ (req : Request) (p : list (string * pval)),
      issued sample_state
        (sample_matches 0%nat (Some 0) None None None None None None
           sample_state).2 = [req]
      ∧ params req = Some p
      ∧ dict_get "page[limit]" p = Some (PInt 50).
Proof.
  apply (matches_limit_zero json sample_data_to_object sample_link_to_object
           sample_obj_iter sample_datetime sample_isoformat sample_server
           0%nat sample_client None None None None None None sample_state).
  reflexivity.
Defined.

Lemma apikey_and_apiurl_invariant_witness :
  ∃ c' : Client,
    heap (sample_run 0%nat (CallVainglory sample_datetime "eu") sample_state).2
      = <[0%nat := c']> (heap sample_state) ∧
    apikey c' = "getoffmylawn" ∧
    _apiurl c' = "https://api.dc01.gamelockerapp.com/".
Proof.
  apply (apikey_and_apiurl_invariant json sample_data_to_object
           sample_link_to_object sample_obj_iter sample_datetime
           sample_isoformat sample_server 0%nat sample_client
           (CallVainglory sample_datetime "eu") sample_state
           (sample_run 0%nat (CallVainglory sample_datetime "eu") sample_state).2
           (sample_run 0%nat (CallVainglory sample_datetime "eu") sample_state).1).
  - reflexivity.
  - reflexivity.
Defined.

(** ** Beyond the contract, on the sample service *)

Local Abbreviation flaky_matches :=
  (matches json sample_data_to_object sample_link_to_object sample_obj_iter
     sample_datetime sample_isoformat flaky_server).
Local Abbreviation sample_match_ :=
  (match_ json sample_data_to_object sample_link_to_object sample_server).
Local Abbreviation constant_matches body :=
  (matches json sample_data_to_object sample_link_to_object sample_obj_iter
     sample_datetime sample_isoformat (constant_server body)).
Local Abbreviation constant_get body :=
  (_get json sample_data_to_object sample_link_to_object (constant_server body)).

Lemma status_returns_body_witness :
  status sample_server 0%nat sample_state
  = (Ok (sample_document 1),
     mkState (heap sample_state)
       [mkRequest "https://api.dc01.gamelockerapp.com/status"
          [("Authorization", "Bearer getoffmylawn");
           ("X-TITLE-ID", "semc-vainglory");
           ("Accept", "application/vnd.api+json")]
          None]).
Proof.
  apply (status_returns_body sample_server 0%nat sample_client sample_state
           (mkResponse None (Ok (sample_document 1))) (sample_document 1));
    reflexivity.
Defined.

Lemma Vainglory_then_match_witness :
  ∃ (self' : loc) (σ1 : State),
    Vainglory 0%nat "eu" sample_state = (Ok self', σ1) ∧
    issued σ1 (sample_match_ self' "abc123" σ1).2
    = [mkRequest "https://api.dc01.gamelockerapp.com/shards/eu/matches/abc123"
         [("Authorization", "Bearer getoffmylawn");
          ("X-TITLE-ID", "semc-vainglory");
          ("Accept", "application/vnd.api+json")]
         None].
Proof.
  apply (Vainglory_then_match json sample_data_to_object sample_link_to_object
           sample_server 0%nat sample_client "eu" "abc123" sample_state).
  reflexivity.
Defined.

Lemma matches_negative_limit_witness :
  sample_matches 0%nat (Some (-5)) None None None None None None sample_state
  = (Ok [], sample_state).
Proof.
  apply (matches_negative_limit json sample_data_to_object
           sample_link_to_object sample_obj_iter sample_datetime
           sample_isoformat sample_server 0%nat (-5) None None None None
           None None sample_state).
  lia.
Defined.

(** Against the service that fails on its second request, two of the
    three batches of [matches(limit=120)] are sent. *)
Lemma matches_request_bound_witness :
  50 * (Z.of_nat
          (length
             (issued sample_state
                (flaky_matches 0%nat (Some 120) None None None None None None
                   sample_state).2)) - 1) < 120.
Proof.
  apply (matches_request_bound json sample_data_to_object
           sample_link_to_object sample_obj_iter sample_datetime
           sample_isoformat flaky_server 0%nat sample_client (Some 120) None
           None None None None None sample_state
           (flaky_matches 0%nat (Some 120) None None None None None None
              sample_state).2
           (flaky_matches 0%nat (Some 120) None None None None None None
              sample_state).1).
  - reflexivity.
  - simpl. lia.
  - reflexivity.
Defined.

Lemma matches_asks_for_limit_witness :
  let σ' := (sample_matches 0%nat (Some 120) None None None None None None
               sample_state).2 in
  50 * (Z.of_nat (length (issued sample_state σ')) - 1) < 120
    ≤ 50 * Z.of_nat (length (issued sample_state σ'))
  ∧ Forall (λ req, 1 ≤ page_limit req ≤ 50) (issued sample_state σ')
  ∧ foldr Z.add 0 (page_limit <$> issued sample_state σ') = 120.
Proof.
  apply (matches_asks_for_limit json sample_data_to_object
           sample_link_to_object sample_obj_iter sample_datetime
           sample_isoformat sample_server 0%nat sample_client (Some 120) None
           None None None None None sample_state
           (sample_matches 0%nat (Some 120) None None None None None None
              sample_state).2
           (replicate 6 sample_match)).
  - reflexivity.
  - simpl. lia.
  - reflexivity.
Defined.

Lemma matches_pages_contiguous_witness :
  let σ' := (sample_matches 0%nat (Some 120) (Some 7) None None None None None
               sample_state).2 in
  (∀ req : Request,
     issued sample_state σ' !! 0%nat = Some req → page_offset req = 7) ∧
  (∀ (i : nat) (req req' : Request),
     issued sample_state σ' !! i = Some req →
     issued sample_state σ' !! S i = Some req' →
     page_offset req' = page_offset req + page_limit req).
Proof.
  apply (matches_pages_contiguous json sample_data_to_object
           sample_link_to_object sample_obj_iter sample_datetime
           sample_isoformat sample_server 0%nat sample_client (Some 120)
           (Some 7) None None None None None sample_state
           (sample_matches 0%nat (Some 120) (Some 7) None None None None None
              sample_state).2
           (sample_matches 0%nat (Some 120) (Some 7) None None None None None
              sample_state).1).
  - reflexivity.
  - reflexivity.
Defined.

Lemma matches_sends_filters_witness :
  ∃ p : list (string * pval),
    params (batch_request sample_client
              [("sort", PStr "createdAt");
               ("filter[createdAt-start]", PStr "2017-02-28T12:30:00")]
              50 0 0) = Some p ∧
    dict_get "sort" p = Some (PStr "createdAt") ∧
    dict_get "filter[createdAt-start]" p = Some (PStr "2017-02-28T12:30:00").
Proof.
  destruct (matches_sends_filters json sample_data_to_object
              sample_link_to_object sample_obj_iter sample_datetime
              sample_isoformat sample_server 0%nat sample_client None None
              (Some "createdAt") None None
              (Some (TDatetime (mkDatetime 2017 2 28 12 30 0))) None
              sample_state
              (sample_matches 0%nat None None (Some "createdAt") None None
                 (Some (TDatetime (mkDatetime 2017 2 28 12 30 0))) None
                 sample_state).2
              (sample_matches 0%nat None None (Some "createdAt") None None
                 (Some (TDatetime (mkDatetime 2017 2 28 12 30 0))) None
                 sample_state).1
              (batch_request sample_client
                 [("sort", PStr "createdAt");
                  ("filter[createdAt-start]", PStr "2017-02-28T12:30:00")]
                 50 0 0))
    as (p & Hp & Hsort & _ & _ & Hstart & _).
  - reflexivity.
  - reflexivity.
  - vm_compute. by left.
  - exists p. split; [exact Hp|]. split.
    + apply (Hsort "createdAt"); [reflexivity|discriminate].
    + apply (Hstart (mkDatetime 2017 2 28 12 30 0)). reflexivity.
Defined.

(** [status()] against the service whose body is no JSON. *)
Lemma transport_failure_is_final_witness :
  let run_garbled :=
    run json sample_data_to_object sample_link_to_object sample_obj_iter
      sample_datetime sample_isoformat garbled_server 0%nat
      (CallStatus sample_datetime) sample_state in
  run_garbled.1 = Raise (ValueError "no JSON object could be decoded")
  ∧ length (log run_garbled.2) = 1%nat.
Proof.
  intros run_garbled.
  apply (transport_failure_is_final json sample_data_to_object
           sample_link_to_object sample_obj_iter sample_datetime
           sample_isoformat garbled_server 0%nat sample_client
           (CallStatus sample_datetime) sample_state run_garbled.2
           run_garbled.1 0%nat
           (mkRequest "https://api.dc01.gamelockerapp.com/status"
              [("Authorization", "Bearer getoffmylawn");
               ("X-TITLE-ID", "semc-vainglory");
               ("Accept", "application/vnd.api+json")]
              None)
           (ValueError "no JSON object could be decoded")).
  - reflexivity.
  - reflexivity.
  - simpl. lia.
  - reflexivity.
  - right. eexists. split; [reflexivity|]. split; reflexivity.
Defined.

(** [matches(limit=120)] against a service whose documents have no data
    section: one request, then [KeyError]. *)
Lemma matches_document_failure_is_final_witness :
  let body := JObj [("included", JArr [])] in
  let outcome :=
    constant_matches body 0%nat (Some 120) None None None None None None
      sample_state in
  outcome.1 = Raise (KeyError "data") ∧ length (log outcome.2) = 1%nat.
Proof.
  intros body outcome.
  apply (matches_document_failure_is_final json sample_data_to_object
           sample_link_to_object sample_obj_iter sample_datetime
           sample_isoformat (constant_server body) 0%nat sample_client
           (Some 120) None None None None None None sample_state
           outcome.2 outcome.1 0%nat
           (batch_request sample_client [("page[limit]", PInt 120)] 120 0 0)
           (mkResponse None (Ok body)) body (KeyError "data")).
  - reflexivity.
  - reflexivity.
  - simpl. lia.
  - reflexivity.
  - reflexivity.
  - reflexivity.
  - reflexivity.
  - reflexivity.
Defined.

(** [matches(limit=30)] against a service that answers with one match
    instead of a list, the match being an object that cannot be iterated. *)
Lemma matches_single_object_batch_witness :
  let request := batch_request sample_client [("page[limit]", PInt 30)] 30 0 0 in
  constant_matches (JObj [("data", sample_match)]) 0%nat (Some 30) None None
    None None None None sample_state
  = (Raise (TypeError "object is not iterable"),
     mkState (heap sample_state) [request]).
Proof.
  apply (matches_single_object_batch json sample_data_to_object
           sample_link_to_object sample_obj_iter sample_datetime
           sample_isoformat (constant_server (JObj [("data", sample_match)]))
           0%nat sample_client (Some 30) None None None None None None
           sample_match sample_state).
  - reflexivity.
  - simpl. lia.
  - reflexivity.
Defined.

Lemma _get_missing_data_witness :
  constant_get (JObj [("included", JArr [sample_match])]) 0%nat "matches"
    "abc123" None sample_state
  = (Raise (KeyError "data"),
     mkState (heap sample_state)
       [shard_request sample_client "matches" "abc123" None]).
Proof.
  apply (_get_missing_data json sample_data_to_object sample_link_to_object
           (constant_server (JObj [("included", JArr [sample_match])]))
           0%nat sample_client "matches" "abc123" None
           [("included", JArr [sample_match])] sample_state).
  - reflexivity.
  - reflexivity.
  - reflexivity.
  - intros included [= <-]. exists [sample_match], [sample_match].
    split; [reflexivity|]. repeat constructor.
Defined.

(** The second included entity is a str, which does not materialize; the
    data section is never looked at. *)
Lemma _get_included_failure_first_witness :
  let body := JObj [("data", JArr [sample_match]);
                    ("included", JArr [sample_match; JStr "p1"; sample_match])] in
  constant_get body 0%nat "matches" "abc123" None sample_state
  = (Raise (TypeError "string indices must be integers"),
     mkState (heap sample_state)
       [shard_request sample_client "matches" "abc123" None]).
Proof.
  intros body.
  apply (_get_included_failure_first json sample_data_to_object
           sample_link_to_object (constant_server body) 0%nat sample_client
           "matches" "abc123" None
           [("data", JArr [sample_match]);
            ("included", JArr [sample_match; JStr "p1"; sample_match])]
           [sample_match] (JStr "p1") [sample_match]
           (TypeError "string indices must be integers") sample_state).
  - reflexivity.
  - reflexivity.
  - reflexivity.
  - repeat constructor. by eexists.
  - reflexivity.
Defined.
